(** * pdf-banner: a shallow embedding of [main.ts] and [test.ts]

    The program draws one PVC banner page: a white base rectangle, an inset
    panel with a border, mounting circles in the corners and along the edges,
    and a block of text.  [generatePDF] is embedded as a function from its
    arguments to the sequence of drawing calls it issues on the page.

    JavaScript numbers are IEEE 754 binary64 values.  The embedding is written
    once, over an interface [Number] of the arithmetic the program uses, and
    read at three instances:
    - [QNumber]: exact rational arithmetic, the arithmetic the formulas of
      the documentation are written in (module [Exact]);
    - [Binary64.FloatNumber]: Rocq's primitive floats, which are the binary64
      numbers of the JavaScript engine, operation for operation (module
      [Double]);
    - [RoundedNumber]: rational arithmetic with every result rounded, the
      standard model of floating-point error (section [Rounded]).

    The calls that leave the program (reading a font file, embedding a font,
    running a child process, looking at a file) are fields of a runtime
    record: [loadFont] and the test script's [runTest] and [runAllTests] are
    functions of such a record. *)

From Stdlib Require Import ZArith QArith Qround Qabs Lia Lqa List String Ascii Bool.
From Stdlib Require Import Floats.PrimFloat Floats.FloatOps Floats.SpecFloat.
From Stdlib Require Import Numbers.Cyclic.Int63.Uint63.
Import ListNotations.

Set Warnings "-inexact-float".
Set Implicit Arguments.

(** ** Numbers *)

(** The arithmetic of [main.ts]: decimal literals, the four operations, the
    comparison [>=] and [Math.floor].  [floor] returns the integer as a [Z]:
    its results are used as a loop bound and, after [+ 1], as a divisor. *)
Class Number (num : Type) : Type := {
  lit : Q -> num;
  add : num -> num -> num;
  sub : num -> num -> num;
  mul : num -> num -> num;
  div : num -> num -> num;
  geb : num -> num -> bool;
  floor : num -> Z
}.

Declare Scope num_scope.
Delimit Scope num_scope with num.
Infix "+" := add : num_scope.
Infix "-" := sub : num_scope.
Infix "*" := mul : num_scope.
Infix "/" := div : num_scope.
Infix ">=?" := geb (at level 70, no associativity) : num_scope.
Arguments lit {num _} q%_Q.

(** An integer used as a number (an array length, a loop index). *)
Definition ofZ {num} `{Number num} (z : Z) : num := lit (inject_Z z).
Definition ofNat {num} `{Number num} (n : nat) : num := ofZ (Z.of_nat n).

(** Exact arithmetic. *)
#[export] Instance QNumber : Number Q := {|
  lit := fun q => q;
  add := Qplus;
  sub := Qminus;
  mul := Qmult;
  div := Qdiv;
  geb := fun a b => Qle_bool b a;
  floor := Qfloor
|}.

(** Binary64 arithmetic.  A literal [n/d] is the correctly rounded quotient of
    the two integers, which is the double nearest to the decimal literal as
    long as [n] and [d] are below [2^53] (they are, for every literal of the
    program).  [floor] is read off the mantissa and exponent; it is only
    called on finite values.

    The instance is the arithmetic of the program on finite values:
    [mathFloor] returns 0 on an infinity or a NaN, where [Math.floor] returns
    its argument, and [integer] is exact for integers below [2^53] in
    absolute value (it goes through a 63-bit integer).  The statements that
    evaluate this instance take their dimensions from a stated finite range
    (whole millimetres up to 10 m) or at stated values. *)
Module Binary64.

Definition integer (z : Z) : float :=
  if (z <? 0)%Z then PrimFloat.opp (of_uint63 (Uint63.of_Z (- z)))
  else of_uint63 (Uint63.of_Z z).

Definition literal (q : Q) : float :=
  PrimFloat.div (integer (Qnum q)) (integer (Zpos (Qden q))).

Definition mathFloor (x : float) : Z :=
  match Prim2SF x with
  | S754_finite s m e =>
      let v := if s then Z.neg m else Z.pos m in
      if (0 <=? e)%Z then (v * 2 ^ e)%Z else (v / 2 ^ (- e))%Z
  | _ => 0%Z
  end.

#[export] Instance FloatNumber : Number float := {|
  lit := literal;
  add := PrimFloat.add;
  sub := PrimFloat.sub;
  mul := PrimFloat.mul;
  div := PrimFloat.div;
  geb := fun a b => PrimFloat.leb b a;
  floor := mathFloor
|}.

End Binary64.

(** Rounded arithmetic, the standard model of floating point: every literal
    and every operation returns its exact result passed through a rounding
    function [rnd]. *)
Definition RoundedNumber (rnd : Q -> Q) : Number Q := {|
  lit := fun q => rnd q;
  add := fun a b => rnd (a + b)%Q;
  sub := fun a b => rnd (a - b)%Q;
  mul := fun a b => rnd (a * b)%Q;
  div := fun a b => rnd (a / b)%Q;
  geb := fun a b => Qle_bool b a;
  floor := Qfloor
|}.

(** ** Results of a call that can throw *)

Inductive Error : Type :=
| TypeError (message : string).

Inductive Result (A : Type) : Type :=
| Ok (a : A)
| Throw (e : Error).
Arguments Ok {A} a.
Arguments Throw {A} e.

Definition bind {A B} (r : Result A) (k : A -> Result B) : Result B :=
  match r with
  | Ok a => k a
  | Throw e => Throw e
  end.

Notation "x <- r ;; k" := (bind r (fun x => k))
  (at level 61, r at next level, right associativity).
Notation "' p <- r ;; k" := (bind r (fun x => let 'p := x in k))
  (at level 61, p pattern, r at next level, right associativity).

(** ** The program *)

Section Model.

Context {num : Type} `{Number num}.
Local Open Scope num_scope.
Local Open Scope string_scope.
Local Open Scope list_scope.

(** [mmToPoints], main.ts lines 10-15. *)
Definition mmToPoints (mm : num) : num :=
  (mm / lit 25.4) * lit 72.

(** The inverse conversion.  The program has no function for it; it writes
    the expression inline where it logs a spacing in millimetres
    ([horizontalSpacing * 25.4 / 72], lines 183 and 216). *)
Definition pointsToMm (points : num) : num :=
  points * lit 25.4 / lit 72.

(** What [colors[colorName]] can evaluate to: one of the table's tuples, a
    member inherited from [Object.prototype] (the table is an object
    literal, so a lookup that misses the table's own keys continues in its
    prototype), or [undefined]. *)
Inductive JSValue : Type :=
| JSTuple (c m y k : num)
| JSInherited (name : string)
| JSUndefined.

(** The table of [getColor], lines 21-43, in source order. *)
Definition colors : list (string * (num * num * num * num)) :=
  [ ("black",   (lit 0, lit 0, lit 0, lit 1));
    ("white",   (lit 0, lit 0, lit 0, lit 0));
    ("red",     (lit 0, lit 1, lit 1, lit 0));
    ("blue",    (lit 1, lit 0, lit 0, lit 0));
    ("yellow",  (lit 0, lit 0, lit 1, lit 0));
    ("green",   (lit 1, lit 0, lit 1, lit 0));
    ("orange",  (lit 0, lit 0.5, lit 1, lit 0));
    ("purple",  (lit 0.5, lit 1, lit 0, lit 0));
    ("pink",    (lit 0, lit 0.7, lit 0.2, lit 0));
    ("cyan",    (lit 1, lit 0, lit 0.2, lit 0));
    ("magenta", (lit 0, lit 1, lit 0, lit 0));
    ("lime",    (lit 0.5, lit 0, lit 1, lit 0));
    ("navy",    (lit 1, lit 0.5, lit 0, lit 0.2));
    ("maroon",  (lit 0.2, lit 1, lit 1, lit 0.2));
    ("teal",    (lit 1, lit 0.2, lit 0.5, lit 0));
    ("olive",   (lit 0.3, lit 0.2, lit 1, lit 0.1));
    ("silver",  (lit 0, lit 0, lit 0, lit 0.25));
    ("gold",    (lit 0, lit 0.2, lit 0.8, lit 0.1)) ].

(** The function-valued members every object inherits from
    [Object.prototype] (ECMAScript 20.1.3 and B.2.2).  The accessor
    [__proto__] is left out: the Deno runtime, which the program is written
    for, removes it. *)
Definition ObjectPrototype : list string :=
  [ "constructor"; "hasOwnProperty"; "isPrototypeOf";
    "propertyIsEnumerable"; "toLocaleString"; "toString"; "valueOf";
    "__defineGetter__"; "__defineSetter__";
    "__lookupGetter__"; "__lookupSetter__" ].

Fixpoint ownProperty {A} (o : list (string * A)) (key : string) : option A :=
  match o with
  | [] => None
  | (k, v) :: rest => if String.eqb k key then Some v else ownProperty rest key
  end.

Definition inherited (key : string) : bool :=
  existsb (String.eqb key) ObjectPrototype.

(** [o[key]] for an object literal of tuples. *)
Definition getProperty (o : list (string * (num * num * num * num)))
    (key : string) : JSValue :=
  match ownProperty o key with
  | Some (c, m, y, k) => JSTuple c m y k
  | None => if inherited key then JSInherited key else JSUndefined
  end.

Definition truthy (v : JSValue) : bool :=
  match v with
  | JSUndefined => false
  | _ => true
  end.

(** [a || b]. *)
Definition or_else (a b : JSValue) : JSValue :=
  if truthy a then a else b.

(** [getColor], lines 20-46. *)
Definition getColor (colorName : string) : JSValue :=
  or_else (getProperty colors colorName) (getProperty colors "black").

(** [const [c, m, y, k] = v]: array destructuring iterates [v]; a function
    or a missing value is not iterable. *)
Definition destructure (v : JSValue) : Result (num * num * num * num) :=
  match v with
  | JSTuple c m y k => Ok (c, m, y, k)
  | JSInherited _ => Throw (TypeError "value is not iterable")
  | JSUndefined => Throw (TypeError "undefined is not iterable")
  end.

(** *** The page and its drawing calls (pdf-lib) *)

Record Color : Type := cmyk { cyan : num; magenta : num; yellow : num; key : num }.

Record RectangleOptions : Type := {
  rect_x : num;
  rect_y : num;
  rect_width : num;
  rect_height : num;
  rect_color : Color;
  rect_borderColor : option Color;
  rect_borderWidth : option num
}.

Record CircleOptions : Type := {
  circle_x : num;
  circle_y : num;
  circle_size : num;
  circle_color : Color
}.

Record TextOptions : Type := {
  text_x : num;
  text_y : num;
  text_size : num;
  text_color : Color
}.

Inductive Drawing : Type :=
| DrawRectangle (options : RectangleOptions)
| DrawCircle (options : CircleOptions)
| DrawText (text : string) (options : TextOptions).

(** A page is its size and the drawing calls made on it so far, oldest
    first.  [getSize] returns the size [addPage] was given. *)
Record PDFPage : Type := {
  pageSize : num * num;
  drawings : list Drawing
}.

Definition addPage (size : num * num) : PDFPage :=
  {| pageSize := size; drawings := [] |}.

Definition getSize (page : PDFPage) : num * num := pageSize page.

Definition draw (page : PDFPage) (d : Drawing) : PDFPage :=
  {| pageSize := pageSize page; drawings := drawings page ++ [d] |}.

Definition drawRectangle (page : PDFPage) (options : RectangleOptions) : PDFPage :=
  draw page (DrawRectangle options).

Definition drawCircle (page : PDFPage) (options : CircleOptions) : PDFPage :=
  draw page (DrawCircle options).

Definition drawText (page : PDFPage) (text : string) (options : TextOptions) : PDFPage :=
  draw page (DrawText text options).

(** The embedded font, as far as the layout uses it: the width of a run of
    text at a size.  Which of the three fonts was loaded is decided by file
    reads outside the model. *)
Record PDFFont : Type := {
  widthOfTextAtSize : string -> num -> num
}.

(** *** Control structures *)

(** [text.split(sep)] for a one-character separator. *)
Fixpoint split (sep : ascii) (text : string) : list string :=
  match text with
  | EmptyString => [EmptyString]
  | String c rest =>
      if Ascii.eqb c sep then EmptyString :: split sep rest
      else match split sep rest with
           | line :: lines => String c line :: lines
           | [] => [String c EmptyString]
           end
  end.

(** [array.forEach((item, index) => ...)], the callback updating the page. *)
Fixpoint forEachFrom {A St : Type} (index : nat) (callback : St -> A -> nat -> St)
    (array : list A) (s : St) : St :=
  match array with
  | [] => s
  | item :: rest => forEachFrom (S index) callback rest (callback s item index)
  end.

Definition forEach {A St : Type} (callback : St -> A -> nat -> St)
    (array : list A) (s : St) : St :=
  forEachFrom 0 callback array s.

(** [for (let i = 1; i <= last; i++) body]. *)
Definition forUpTo {St : Type} (last : Z) (body : St -> Z -> St) (s : St) : St :=
  fold_left body (map Z.of_nat (seq 1 (Z.to_nat last))) s.

Definition newline : ascii := "010"%char.

(** *** [generatePDF], lines 52-293

    Logging, font loading and the final write to disk are left out; the font
    that was loaded is the argument [customFont], and the calls into pdf-lib
    (creating the page, measuring and drawing) are taken to succeed.  The
    result is the page with its drawings, or the error thrown.

    pdf-lib is not part of the program's source: it rejects an argument that
    is NaN, and drawing a text can fail when the font cannot encode it.  The
    embedding therefore says what a run has drawn when it returns; the only
    error it contains is the one the program's own code raises, at lines 79
    and 80. *)
Definition generatePDF (customFont : PDFFont) (text : string)
    (widthMm heightMm : num) (centerText : bool) (fontSizeMm : num)
    (foregroundColor backgroundColor : string) : Result PDFPage :=
  let marginMm := lit 25 in
  let borderThickness := lit 0.5 in
  let page := addPage (mmToPoints widthMm, mmToPoints heightMm) in
  let '(width, height) := getSize page in
  '(fgC, fgM, fgY, fgK) <- destructure (getColor foregroundColor) ;;
  '(bgC, bgM, bgY, bgK) <- destructure (getColor backgroundColor) ;;
  (* 1. white base layer *)
  let page := drawRectangle page
    {| rect_x := lit 0; rect_y := lit 0; rect_width := width; rect_height := height;
       rect_color := cmyk (lit 0) (lit 0) (lit 0) (lit 0);
       rect_borderColor := None; rect_borderWidth := None |} in
  (* 2. inset panel *)
  let margin := mmToPoints marginMm in
  let rectX := margin in
  let rectY := margin in
  let rectWidth := width - (lit 2 * margin) in
  let rectHeight := height - (lit 2 * margin) in
  let page := drawRectangle page
    {| rect_x := rectX; rect_y := rectY; rect_width := rectWidth; rect_height := rectHeight;
       rect_color := cmyk bgC bgM bgY bgK;
       rect_borderColor := Some (cmyk fgC fgM fgY fgK);
       rect_borderWidth := Some (mmToPoints borderThickness) |} in
  (* 3. corner circles *)
  let circleRadius := mmToPoints (lit 6) in
  let circleOffset := mmToPoints (lit 37.5) in
  let cornerPositions :=
    [ (circleOffset, circleOffset);
      (width - circleOffset, circleOffset);
      (circleOffset, height - circleOffset);
      (width - circleOffset, height - circleOffset) ] in
  let page := forEach (fun page pos (_ : nat) =>
    drawCircle page
      {| circle_x := fst pos; circle_y := snd pos; circle_size := circleRadius;
         circle_color := cmyk fgC fgM fgY fgK |}) cornerPositions page in
  (* 4. intermediate circles *)
  let minDistanceMm := lit 500 in
  let minDistance := mmToPoints minDistanceMm in
  let horizontalDistance := width - (lit 2 * circleOffset) in
  let page :=
    if horizontalDistance >=? minDistance then
      let numIntermediateCircles := floor (horizontalDistance / minDistance) in
      let horizontalSpacing := horizontalDistance / (ofZ numIntermediateCircles + lit 1) in
      forUpTo numIntermediateCircles (fun page i =>
        let x := circleOffset + (ofZ i * horizontalSpacing) in
        let page := drawCircle page
          {| circle_x := x; circle_y := height - circleOffset; circle_size := circleRadius;
             circle_color := cmyk fgC fgM fgY fgK |} in
        drawCircle page
          {| circle_x := x; circle_y := circleOffset; circle_size := circleRadius;
             circle_color := cmyk fgC fgM fgY fgK |}) page
    else page in
  let verticalDistance := height - (lit 2 * circleOffset) in
  let page :=
    if verticalDistance >=? minDistance then
      let numIntermediateCircles := floor (verticalDistance / minDistance) in
      let verticalSpacing := verticalDistance / (ofZ numIntermediateCircles + lit 1) in
      forUpTo numIntermediateCircles (fun page i =>
        let y := circleOffset + (ofZ i * verticalSpacing) in
        let page := drawCircle page
          {| circle_x := circleOffset; circle_y := y; circle_size := circleRadius;
             circle_color := cmyk fgC fgM fgY fgK |} in
        drawCircle page
          {| circle_x := width - circleOffset; circle_y := y; circle_size := circleRadius;
             circle_color := cmyk fgC fgM fgY fgK |}) page
    else page in
  (* text *)
  let fontSize := mmToPoints fontSizeMm in
  let lineSpacing := fontSize * lit 1.3 in
  let lines := split newline text in
  let totalLines := List.length lines in
  let totalTextHeight := (ofNat totalLines - lit 1) * lineSpacing + fontSize in
  let lineWidths := map (fun line => widthOfTextAtSize customFont line fontSize) lines in
  let startY :=
    if centerText then
      let middleOfPage := height / lit 2 in
      let totalBlockHeight := totalTextHeight in
      let halfLineHeight := lineSpacing * lit 0.5 in
      let visualCenterOffset := fontSize * lit 0.35 in
      middleOfPage + (totalBlockHeight / lit 2) - visualCenterOffset - halfLineHeight
    else height - mmToPoints (lit 25) in
  let page := forEach (fun page line index =>
    let lineY := startY - (ofNat index * lineSpacing) in
    let lineX :=
      if centerText then (width - nth index lineWidths (lit 0)) / lit 2
      else mmToPoints (marginMm + lit 5) in
    drawText page line
      {| text_x := lineX; text_y := lineY; text_size := fontSize;
         text_color := cmyk fgC fgM fgY fgK |}) lines page in
  Ok page.

End Model.

Arguments JSValue num : clear implicits.
Arguments Color num : clear implicits.
Arguments RectangleOptions num : clear implicits.
Arguments CircleOptions num : clear implicits.
Arguments TextOptions num : clear implicits.
Arguments Drawing num : clear implicits.
Arguments PDFPage num : clear implicits.
Arguments PDFFont num : clear implicits.

Unset Implicit Arguments.

(** ** Font loading, main.ts lines 82-98

    The part of [generatePDF] that chooses the font; what it returns is the
    argument [customFont] of the embedding of [generatePDF] above. *)

(** A call into the runtime or into pdf-lib that can reject: reading a file,
    embedding a font, running a process.  The program catches these errors
    without looking at them, so only the fact of the failure is kept, with a
    reason for the reader. *)
Inductive Attempt (A : Type) : Type :=
| Done (a : A)
| Failed (reason : string).
Arguments Done {A} a.
Arguments Failed {A} reason.

(** The one member of pdf-lib's [StandardFonts] the program names. *)
Inductive StandardFonts : Type := HelveticaBold.

(** What [pdfDoc.embedFont] is given: the bytes of a font file or the name of
    a standard font. *)
Inductive FontData : Type :=
| FontBytes (bytes : string)
| StandardFont (font : StandardFonts).

Section FontLoading.

Context {num : Type}.
Local Open Scope string_scope.
Local Open Scope list_scope.

(** The two calls font loading depends on. *)
Record FontRuntime : Type := {
  readFile : string -> Attempt string;
  embedFont : FontData -> Attempt (PDFFont num)
}.

(** The two statements of a [try] block, lines 85-86 and 91-92: read the
    file, then embed its bytes; either can throw. *)
Definition readAndEmbed (runtime : FontRuntime) (path : string) : Attempt (PDFFont num) :=
  match readFile runtime path with
  | Done bytes => embedFont runtime (FontBytes bytes)
  | Failed reason => Failed reason
  end.

(** Lines 83-98: the lines written to the console and the font, or the
    failure of the last [embedFont], which no [catch] surrounds. *)
Definition loadFont (runtime : FontRuntime) : list string * Attempt (PDFFont num) :=
  match readAndEmbed runtime "DejaVuSansCondensed-Bold.ttf" with
  | Done customFont =>
      ([ "Załadowano font DejaVu Sans Condensed Bold - kompaktowy z pełnym wsparciem symboli" ],
       Done customFont)
  | Failed _ =>
      let console :=
        [ "Nie można załadować DejaVu Sans Condensed Bold, próbuję systemowy DejaVu Sans Bold..." ] in
      match readAndEmbed runtime "/usr/share/fonts/truetype/dejavu/DejaVuSans-Bold.ttf" with
      | Done customFont =>
          (console ++ [ "Używam systemowy DejaVu Sans Bold jako fallback" ], Done customFont)
      | Failed _ =>
          (console ++ [ "Używam Helvetica Bold jako ostateczny fallback" ],
           embedFont runtime (StandardFont HelveticaBold))
      end
  end.

End FontLoading.

Arguments FontRuntime num : clear implicits.

(** ** The test script, test.ts *)

Module TestScript.

Import Binary64.
Local Open Scope string_scope.
Local Open Scope list_scope.

(** [interface TestCase], lines 15-20. *)
Record TestCase : Type := {
  name : string;
  args : list string;
  expectedOutput : string;
  description : string
}.

(** [testCases], lines 22-74.  The text of the third case is written
    ["MULTI\\nLINE\\nTEST"] in the source: a backslash followed by the
    letter n, twice, and no line break. *)
Definition testCases : list TestCase :=
  [ {| name := "basic-banner";
       args := [ "--text"; "TEST BANNER"; "--output"; "test_basic.pdf" ];
       expectedOutput := "test_basic.pdf";
       description := "Basic banner with default settings" |};
    {| name := "large-banner";
       args := [ "--text"; "LARGE BANNER TEST";
                 "--width"; "3000";
                 "--height"; "1200";
                 "--font-size"; "40";
                 "--output"; "test_large.pdf" ];
       expectedOutput := "test_large.pdf";
       description := "Large banner with intermediate circles" |};
    {| name := "multiline-text";
       args := [ "--text"; "MULTI\nLINE\nTEST";
                 "--font-size"; "30";
                 "--fg"; "red";
                 "--bg"; "white";
                 "--output"; "test_multiline.pdf" ];
       expectedOutput := "test_multiline.pdf";
       description := "Multi-line text with custom colors" |};
    {| name := "small-font";
       args := [ "--text"; "Small Font Test";
                 "--font-size"; "8";
                 "--output"; "test_small_font.pdf" ];
       expectedOutput := "test_small_font.pdf";
       description := "Small font size test (8mm)" |};
    {| name := "color-palette";
       args := [ "--text"; "COLOR TEST";
                 "--fg"; "navy";
                 "--bg"; "gold";
                 "--output"; "test_colors.pdf" ];
       expectedOutput := "test_colors.pdf";
       description := "Extended color palette test" |} ].

(** [array.indexOf(item)]: the first index of the item, or -1. *)
Fixpoint indexOfFrom (index : Z) (array : list string) (item : string) : Z :=
  match array with
  | [] => (-1)%Z
  | element :: rest =>
      if String.eqb element item then index else indexOfFrom (index + 1) rest item
  end.

Definition indexOf (array : list string) (item : string) : Z := indexOfFrom 0 array item.

(** [array.includes(item)]. *)
Definition includes (array : list string) (item : string) : bool :=
  existsb (String.eqb item) array.

(** [array[index]]; [None] is [undefined]. *)
Definition element (array : list string) (index : Z) : option string :=
  if (index <? 0)%Z then None else nth_error array (Z.to_nat index).

(** [args[args.indexOf(flag) + 1]], the expression of lines 85-96 for the
    value of an option. *)
Definition optionValue (args : list string) (flag : string) : option string :=
  element args (indexOf args flag + 1).

(** [args.includes(flag) ? args[args.indexOf(flag) + 1] : fallback], lines
    93-96. *)
Definition optionOr (args : list string) (flag fallback : string) : option string :=
  if includes args flag then optionValue args flag else Some fallback.

(** What a test run depends on: the dynamic import of main.ts, the exit code
    of the child process started with the given arguments, whether the path
    is a file, and the removal of the file. *)
Record TestRuntime : Type := {
  importMain : Attempt unit;
  processOutput : list string -> Attempt Z;
  statIsFile : string -> Attempt bool;
  remove : string -> Attempt unit
}.

(** [runTest], lines 76-136, without its console output.  The options read
    off the arguments on lines 85-96 are not used by the function ([text],
    [output], [fg] and [bg] are kept as it computes them; the three numeric
    ones, which go through [parseInt], are left out). *)
Definition runTest (runtime : TestRuntime) (testCase : TestCase) : bool :=
  match importMain runtime with
  | Failed _ => false
  | Done _ =>
      let text := optionValue (args testCase) "--text" in
      let output := optionValue (args testCase) "--output" in
      let fg := optionOr (args testCase) "--fg" "black" in
      let bg := optionOr (args testCase) "--bg" "yellow" in
      match processOutput runtime ("run" :: "--allow-all" :: "main.ts" :: args testCase) with
      | Failed _ => false
      | Done code =>
          if (code =? 0)%Z then
            match statIsFile runtime (expectedOutput testCase) with
            | Failed _ => false
            | Done isFile =>
                if isFile then
                  match remove runtime (expectedOutput testCase) with
                  | Done _ => true
                  | Failed _ => false
                  end
                else false
            end
          else false
      end
  end.

(** The loop of [runAllTests], lines 142-152: the counters [passed] and
    [failed] after the given test cases. *)
Definition countResults (runtime : TestRuntime) (cases : list TestCase) : nat * nat :=
  fold_left (fun counters testCase =>
               let '(passed, failed) := counters in
               if runTest runtime testCase then (S passed, failed) else (passed, S failed))
            cases (0%nat, 0%nat).

(** [runAllTests], lines 138-165: the two counters, the success rate of line
    158 before [toFixed(1)] formats it (a binary64 number, as every number of
    the script), and whether the last message is the one of line 161 (all
    tests passed). *)
Definition runAllTests (runtime : TestRuntime) : nat * nat * float * bool :=
  let '(passed, failed) := countResults runtime testCases in
  (passed, failed,
   ((ofNat passed / (ofNat passed + ofNat failed)) * lit 100 : float)%num,
   Nat.eqb failed 0).

End TestScript.

(** * Definitions used by the statements *)

(** ** Reading a page *)

Section Views.

Context {num : Type}.

(** The circles, rectangles and text runs drawn on a page, in drawing order. *)
Definition circlesOf (page : PDFPage num) : list (CircleOptions num) :=
  flat_map (fun d => match d with DrawCircle o => [o] | _ => [] end) (drawings page).

Definition rectanglesOf (page : PDFPage num) : list (RectangleOptions num) :=
  flat_map (fun d => match d with DrawRectangle o => [o] | _ => [] end) (drawings page).

Definition textsOf (page : PDFPage num) : list (string * TextOptions num) :=
  flat_map (fun d => match d with DrawText t o => [(t, o)] | _ => [] end) (drawings page).

(** Several drawing calls in a row. *)
Definition drawAll (page : PDFPage num) (ds : list (Drawing num)) : PDFPage num :=
  {| pageSize := pageSize page; drawings := drawings page ++ ds |}.

(** [map] with the index, as [forEach] passes it. *)
Fixpoint mapiFrom {A B} (index : nat) (f : A -> nat -> B) (l : list A) : list B :=
  match l with
  | [] => []
  | a :: rest => f a index :: mapiFrom (S index) f rest
  end.

End Views.

(** ** The drawings of [generatePDF], block by block *)

Section Blocks.

Context {num : Type} `{Number num}.
Local Open Scope num_scope.
Local Open Scope string_scope.
Local Open Scope list_scope.

(** The loop indices [1 .. last]. *)
Definition indices (last : Z) : list Z := map Z.of_nat (seq 1 (Z.to_nat last)).

Definition circleAt (color : Color num) (x y : num) : CircleOptions num :=
  {| circle_x := x; circle_y := y; circle_size := mmToPoints (lit 6); circle_color := color |}.

Definition baseRectangle (width height : num) : RectangleOptions num :=
  {| rect_x := lit 0; rect_y := lit 0; rect_width := width; rect_height := height;
     rect_color := cmyk (lit 0) (lit 0) (lit 0) (lit 0);
     rect_borderColor := None; rect_borderWidth := None |}.

Definition panelRectangle (width height : num) (fg bg : Color num) : RectangleOptions num :=
  {| rect_x := mmToPoints (lit 25); rect_y := mmToPoints (lit 25);
     rect_width := width - (lit 2 * mmToPoints (lit 25));
     rect_height := height - (lit 2 * mmToPoints (lit 25));
     rect_color := bg;
     rect_borderColor := Some fg;
     rect_borderWidth := Some (mmToPoints (lit 0.5)) |}.

Definition cornerCircles (width height : num) (fg : Color num) : list (CircleOptions num) :=
  let circleOffset := mmToPoints (lit 37.5) in
  [ circleAt fg circleOffset circleOffset;
    circleAt fg (width - circleOffset) circleOffset;
    circleAt fg circleOffset (height - circleOffset);
    circleAt fg (width - circleOffset) (height - circleOffset) ].

(** The number of intermediate circles per edge, and their spacing, for the
    distance between the two corner circles of an edge (lines 154-160 and
    187-193). *)
Definition intermediateCount (distance : num) : Z :=
  if distance >=? mmToPoints (lit 500) then floor (distance / mmToPoints (lit 500))
  else 0%Z.

Definition intermediateSpacing (distance : num) : num :=
  distance / (ofZ (floor (distance / mmToPoints (lit 500))) + lit 1).

Definition horizontalCircles (width height : num) (fg : Color num) : list (CircleOptions num) :=
  let circleOffset := mmToPoints (lit 37.5) in
  let horizontalDistance := width - (lit 2 * circleOffset) in
  flat_map (fun i =>
    let x := circleOffset + (ofZ i * intermediateSpacing horizontalDistance) in
    [ circleAt fg x (height - circleOffset); circleAt fg x circleOffset ])
    (indices (intermediateCount horizontalDistance)).

Definition verticalCircles (width height : num) (fg : Color num) : list (CircleOptions num) :=
  let circleOffset := mmToPoints (lit 37.5) in
  let verticalDistance := height - (lit 2 * circleOffset) in
  flat_map (fun i =>
    let y := circleOffset + (ofZ i * intermediateSpacing verticalDistance) in
    [ circleAt fg circleOffset y; circleAt fg (width - circleOffset) y ])
    (indices (intermediateCount verticalDistance)).

(** The height of the text block (line 227) and the baseline of its first
    line (lines 235-260). *)
Definition totalTextHeight (fontSize : num) (totalLines : nat) : num :=
  (ofNat totalLines - lit 1) * (fontSize * lit 1.3) + fontSize.

Definition startY (centerText : bool) (height fontSize : num) (totalLines : nat) : num :=
  let lineSpacing := fontSize * lit 1.3 in
  if centerText then
    height / lit 2 + (totalTextHeight fontSize totalLines / lit 2)
    - fontSize * lit 0.35 - lineSpacing * lit 0.5
  else height - mmToPoints (lit 25).

Definition textRuns (customFont : PDFFont num) (lines : list string) (centerText : bool)
    (width height fontSize : num) (fg : Color num) : list (string * TextOptions num) :=
  mapiFrom 0 (fun line index =>
    (line,
     {| text_x :=
          if centerText then (width - widthOfTextAtSize customFont line fontSize) / lit 2
          else mmToPoints (lit 25 + lit 5);
        text_y := startY centerText height fontSize (List.length lines)
                  - (ofNat index * (fontSize * lit 1.3));
        text_size := fontSize;
        text_color := fg |})) lines.

Definition bannerDrawings (customFont : PDFFont num) (text : string) (width height : num)
    (centerText : bool) (fontSize : num) (fg bg : Color num) : list (Drawing num) :=
  [ DrawRectangle (baseRectangle width height);
    DrawRectangle (panelRectangle width height fg bg) ]
  ++ map DrawCircle (cornerCircles width height fg)
  ++ map DrawCircle (horizontalCircles width height fg)
  ++ map DrawCircle (verticalCircles width height fg)
  ++ map (fun run => DrawText (fst run) (snd run))
       (textRuns customFont (split newline text) centerText width height fontSize fg).

(** The names of the colour table, as the documentation lists them. *)
Definition colorNames : list string :=
  [ "black"; "white"; "red"; "blue"; "yellow"; "green"; "orange"; "purple";
    "pink"; "cyan"; "magenta"; "lime"; "navy"; "maroon"; "teal"; "olive";
    "silver"; "gold" ].

(** A font for concrete runs: every character is 0.6 em wide. *)
Definition sampleFont : PDFFont num :=
  {| widthOfTextAtSize := fun text size => size * lit 0.6 * ofNat (String.length text) |}.

End Blocks.

(** ** Quantities in millimetres, and the documented rule *)

Section Documented.

Local Open Scope Q_scope.

(** The distribution rule for the intermediate circles, as the documentation
    words it: the span between the corner circles of an edge, the number of
    intermediate circles (none below 500 mm), and the offset of the i-th. *)
Definition span (dimension_mm : Q) : Q := dimension_mm - 2 * 37.5.

Definition documented_count (dimension_mm : Q) : Z :=
  if Qlt_le_dec (span dimension_mm) 500 then 0%Z
  else Qfloor (span dimension_mm / 500).

Definition documented_offset (dimension_mm : Q) (i : Z) : Q :=
  37.5 + inject_Z i * (span dimension_mm / (inject_Z (documented_count dimension_mm) + 1)).

(** The distance the program computes, in points, for a dimension. *)
Definition edgeDistance (dimension_mm : Q) : Q :=
  mmToPoints dimension_mm - 2 * mmToPoints 37.5.

(** The circle centres the documentation describes, in millimetres: the four
    corners, then per horizontal offset a circle on the top and one on the
    bottom edge, then per vertical offset one on the left and one on the
    right edge. *)
Definition documented_corners (width_mm height_mm : Q) : list (Q * Q) :=
  [ (37.5, 37.5); (width_mm - 37.5, 37.5);
    (37.5, height_mm - 37.5); (width_mm - 37.5, height_mm - 37.5) ].

Definition documented_horizontal (width_mm height_mm : Q) : list (Q * Q) :=
  flat_map (fun i => [ (documented_offset width_mm i, height_mm - 37.5);
                       (documented_offset width_mm i, 37.5) ])
    (indices (documented_count width_mm)).

Definition documented_vertical (width_mm height_mm : Q) : list (Q * Q) :=
  flat_map (fun i => [ (37.5, documented_offset height_mm i);
                       (width_mm - 37.5, documented_offset height_mm i) ])
    (indices (documented_count height_mm)).

(** A drawn circle is centred at a point given in millimetres. *)
Definition centred_at (c : CircleOptions Q) (centre_mm : Q * Q) : Prop :=
  circle_x c == mmToPoints (fst centre_mm) /\ circle_y c == mmToPoints (snd centre_mm).

(** The number of occurrences of a character. *)
Fixpoint occurrences (c : ascii) (text : string) : nat :=
  match text with
  | EmptyString => 0
  | String d rest => (if Ascii.eqb d c then 1 else 0) + occurrences c rest
  end.

(** [y] approximates [q] with relative error at most [e]. *)
Definition within (e y q : Q) : Prop := Qabs (y - q) <= e * Qabs q.

End Documented.

(** ** Notions for the properties of the whole run *)

(** [lines.join(sep)] for a one-character separator, the inverse of
    [split]. *)
Fixpoint join (sep : ascii) (lines : list string) : string :=
  match lines with
  | [] => EmptyString
  | line :: rest =>
      match rest with
      | [] => line
      | _ :: _ => (line ++ String sep (join sep rest))%string
      end
  end.

(** A circle lies inside a rectangle, at least [clearance] away from each of
    its four sides. *)
Definition insideRectangle (clearance : Q) (r : RectangleOptions Q) (c : CircleOptions Q) : Prop :=
  (rect_x r + clearance <= circle_x c - circle_size c /\
   circle_x c + circle_size c + clearance <= rect_x r + rect_width r /\
   rect_y r + clearance <= circle_y c - circle_size c /\
   circle_y c + circle_size c + clearance <= rect_y r + rect_height r)%Q.

(** Two results of the colour lookup are tuples with equal components. *)
Definition sameTuple (a b : JSValue Q) : Prop :=
  match a, b with
  | JSTuple c m y k, JSTuple c' m' y' k' => (c == c' /\ m == m' /\ y == y' /\ k == k')%Q
  | _, _ => False
  end.

(** The first attempt of a sequence that succeeded; when none did, the
    failure of the last one. *)
Fixpoint firstDone {A} (first : Attempt A) (others : list (Attempt A)) : Attempt A :=
  match first, others with
  | Done a, _ => Done a
  | Failed reason, [] => Failed reason
  | Failed _, next :: rest => firstDone next rest
  end.

(** Two runtimes for concrete runs: one in which only the system's font
    file exists, and one in which every test process exits with code 0 and
    leaves a file that can be removed. *)
Definition systemFontRuntime : FontRuntime Q :=
  {| readFile := fun path =>
       if String.eqb path "/usr/share/fonts/truetype/dejavu/DejaVuSans-Bold.ttf"
       then Done "font"%string else Failed "NotFound"%string;
     embedFont := fun _ => Done sampleFont |}.

Definition passingRuntime : TestScript.TestRuntime :=
  {| TestScript.importMain := Done tt;
     TestScript.processOutput := fun _ => Done 0%Z;
     TestScript.statIsFile := fun _ => Done true;
     TestScript.remove := fun _ => Done tt |}.

(** ** The binary64 run on whole-millimetre dimensions *)

Section Binary64Run.

Import Binary64.
Local Open Scope num_scope.

(** The number of intermediate circles per edge the program, run in binary64
    arithmetic, places for a dimension given in whole millimetres. *)
Definition programCount (dimension_mm : Z) : Z :=
  intermediateCount (mmToPoints (ofZ dimension_mm : float) - lit 2 * mmToPoints (lit 37.5)).

(** The whole-millimetre dimensions up to 10 m for which the binary64 run
    places one circle fewer per edge than the documented rule. *)
Definition shortDimensions : list Z :=
  [ 575; 2075; 3075; 3575; 4575; 5575; 6075; 7075; 7575; 8075; 9075; 9575 ]%Z.

(** The spacing of the intermediate circles of an edge, and the coordinate
    along the edge of the circle of loop index [i], as the binary64 run
    computes them (lines 160 and 164, 193 and 197). *)
Definition programSpacing (dimension_mm : Z) : float :=
  intermediateSpacing (mmToPoints (ofZ dimension_mm : float) - lit 2 * mmToPoints (lit 37.5)).

Definition programPosition (dimension_mm i : Z) : float :=
  mmToPoints (lit 37.5) + ofZ i * programSpacing dimension_mm.

(** The rational number a finite binary64 value stands for (0 for the
    others). *)
Definition exactValue (x : float) : Q :=
  match Prim2SF x with
  | S754_finite s m e =>
      let v := if s then Z.neg m else Z.pos m in
      if (0 <=? e)%Z then inject_Z (Z.shiftl v e) else v # Pos.shiftl 1 (Z.to_N (- e))
  | _ => 0%Q
  end.

(** The distance, in points, of a binary64 coordinate from the documented
    position of the same index. *)
Definition positionError (dimension_mm i : Z) : Q :=
  Qabs (exactValue (programPosition dimension_mm i)
        - mmToPoints (documented_offset (inject_Z dimension_mm) i))%Q.

(** The checks on the intermediate circle of index [i] of the binary64 run,
    given the quantities that do not depend on [i]: the circle lies strictly
    between the two corner circles of its edge, strictly before the next
    intermediate circle, and, unless the dimension is listed in
    [shortDimensions], within 10^-9 points of its documented position. *)
Definition positionChecked (circleOffset farCorner spacing : float) (count : Z)
    (listed : bool) (step : Q) (i : Z) : bool :=
  let position := fun i : Z => circleOffset + ofZ i * spacing in
  PrimFloat.ltb circleOffset (position i)
  && PrimFloat.ltb (position i) farCorner
  && ((i =? count)%Z || PrimFloat.ltb (position i) (position (i + 1)%Z))
  && (listed
      || Qle_bool (Qabs (exactValue (position i) - mmToPoints (37.5 + inject_Z i * step))%Q)
                  (1 # 1000000000)).

(** The checks on all intermediate circles of a dimension. *)
Definition dimensionChecked (dimension_mm : Z) : bool :=
  let circleOffset : float := mmToPoints (lit 37.5) in
  let farCorner := mmToPoints (ofZ dimension_mm) - circleOffset in
  let spacing := programSpacing dimension_mm in
  let count := programCount dimension_mm in
  let listed := existsb (Z.eqb dimension_mm) shortDimensions in
  let step :=
    (span (inject_Z dimension_mm)
     / (inject_Z (documented_count (inject_Z dimension_mm)) + 1))%Q in
  forallb (positionChecked circleOffset farCorner spacing count listed step) (indices count).

(** The binary64 count of a dimension is the documented one, or one fewer if
    the dimension is listed, in which case its span is a multiple of 500. *)
Definition countAsListed (dimension_mm : Z) : bool :=
  if existsb (Z.eqb dimension_mm) shortDimensions
  then ((programCount dimension_mm =? documented_count (inject_Z dimension_mm) - 1)
        && ((dimension_mm - 75) mod 500 =? 0))%Z
  else (programCount dimension_mm =? documented_count (inject_Z dimension_mm))%Z.

End Binary64Run.

(** * Proofs *)

(** ** Sequences of drawing calls *)

Section PageLemmas.

Context {num : Type}.

Lemma draw_drawAll (page : PDFPage num) d : draw page d = drawAll page [d].
Proof. reflexivity. Qed.

Lemma drawAll_drawAll (page : PDFPage num) ds1 ds2 :
  drawAll (drawAll page ds1) ds2 = drawAll page (ds1 ++ ds2).
Proof. unfold drawAll; simpl. now rewrite app_assoc. Qed.

Lemma drawAll_nil (page : PDFPage num) : drawAll page [] = page.
Proof. destruct page; unfold drawAll; simpl. now rewrite app_nil_r. Qed.

Lemma fold_left_drawAll {A} (f : A -> list (Drawing num)) (l : list A) (page : PDFPage num) :
  fold_left (fun p a => drawAll p (f a)) l page = drawAll page (flat_map f l).
Proof.
  revert page; induction l as [|a l IH]; intros page; simpl.
  - now rewrite drawAll_nil.
  - now rewrite IH, drawAll_drawAll.
Qed.

Lemma forEachFrom_drawAll {A} (f : A -> nat -> Drawing num) (l : list A) k (page : PDFPage num) :
  forEachFrom k (fun p a i => draw p (f a i)) l page = drawAll page (mapiFrom k f l).
Proof.
  revert k page; induction l as [|a l IH]; intros k page; simpl.
  - now rewrite drawAll_nil.
  - now rewrite IH, draw_drawAll, drawAll_drawAll.
Qed.

Lemma Forall_mapiFrom {A B} (P : B -> Prop) (f : A -> nat -> B) (l : list A) k :
  (forall a i, P (f a i)) -> Forall P (mapiFrom k f l).
Proof.
  intros Hf. revert k; induction l as [|a l IH]; intros k; simpl; constructor; auto.
Qed.

Lemma mapiFrom_length {A B} (f : A -> nat -> B) l k : List.length (mapiFrom k f l) = List.length l.
Proof. revert k; induction l; intros; simpl; auto. Qed.

Lemma mapiFrom_nth_error {A B} (f : A -> nat -> B) l k i :
  nth_error (mapiFrom k f l) i = option_map (fun a => f a (k + i)%nat) (nth_error l i).
Proof.
  revert k i; induction l as [|a l IH]; intros k [|i]; simpl; try reflexivity.
  - now rewrite Nat.add_0_r.
  - rewrite IH. now replace (S k + i)%nat with (k + S i)%nat by lia.
Qed.

End PageLemmas.

(** ** Splitting a text *)

Lemma split_length sep text : List.length (split sep text) = S (occurrences sep text).
Proof.
  induction text as [|d rest IH]; simpl; [reflexivity|].
  destruct (Ascii.eqb d sep); simpl.
  - now rewrite IH.
  - destruct (split sep rest) as [|line lines]; [discriminate | exact IH].
Qed.

Lemma split_cons sep text : exists line lines, split sep text = line :: lines.
Proof.
  pose proof (split_length sep text) as Hlen.
  destruct (split sep text) as [|line lines]; [discriminate | eauto].
Qed.

Lemma join_cons sep c line lines :
  join sep (String c line :: lines) = String c (join sep (line :: lines)).
Proof. cbn [join]. now destruct lines. Qed.

Lemma join_split sep text : join sep (split sep text) = text.
Proof.
  induction text as [|c rest IH]; [reflexivity|].
  cbn [split]. destruct (Ascii.eqb_spec c sep) as [->|Hne].
  - destruct (split_cons sep rest) as (line & lines & Hsplit).
    rewrite Hsplit in *. now rewrite <- IH.
  - destruct (split_cons sep rest) as (line & lines & Hsplit).
    rewrite Hsplit in *. now rewrite join_cons, IH.
Qed.

Lemma split_no_separator sep text :
  Forall (fun line => occurrences sep line = 0%nat) (split sep text).
Proof.
  induction text as [|c rest IH]; [repeat constructor|].
  cbn [split]. destruct (Ascii.eqb c sep) eqn:Hc.
  - constructor; [reflexivity | exact IH].
  - destruct (split sep rest) as [|line lines]; [repeat constructor; cbn; now rewrite Hc|].
    inversion IH as [|? ? Hline Hlines]; subst.
    constructor; [cbn; now rewrite Hc | exact Hlines].
Qed.

Lemma split_line sep line :
  occurrences sep line = 0%nat -> split sep line = [line].
Proof.
  induction line as [|c rest IH]; [reflexivity|].
  cbn. destruct (Ascii.eqb c sep); [discriminate|].
  intros Hrest. now rewrite (IH Hrest).
Qed.

Lemma split_append sep line text :
  occurrences sep line = 0%nat ->
  split sep (line ++ String sep text) = line :: split sep text.
Proof.
  induction line as [|c rest IH].
  - intros _. cbn. now rewrite Ascii.eqb_refl.
  - cbn. destruct (Ascii.eqb c sep); [discriminate|].
    intros Hrest. now rewrite (IH Hrest).
Qed.

Lemma split_join sep lines :
  lines <> [] -> Forall (fun line => occurrences sep line = 0%nat) lines ->
  split sep (join sep lines) = lines.
Proof.
  induction lines as [|line rest IH]; [congruence|].
  intros _ Hall. inversion Hall as [|? ? Hline Hrest]; subst.
  destruct rest as [|next rest].
  - now apply split_line.
  - cbn [join]. rewrite (split_append _ _ _ Hline). f_equal.
    apply IH; [discriminate | exact Hrest].
Qed.

(** ** [generatePDF] draws [bannerDrawings] *)

Section LayoutLemmas.

Context {num : Type} `{Number num}.
Local Open Scope num_scope.
Local Open Scope string_scope.
Local Open Scope list_scope.

Lemma map_flat_map {A B C} (g : B -> C) (f : A -> list B) (l : list A) :
  map g (flat_map f l) = flat_map (fun a => map g (f a)) l.
Proof. induction l; simpl; [reflexivity|]. now rewrite map_app, IHl. Qed.

Lemma mapiFrom_ext_nth {A B} (f g : A -> nat -> B) (l : list A) k :
  (forall i a, nth_error l i = Some a -> f a (k + i)%nat = g a (k + i)%nat) ->
  mapiFrom k f l = mapiFrom k g l.
Proof.
  revert k; induction l as [|a l IH]; intros k Hfg; simpl; [reflexivity|].
  f_equal.
  - specialize (Hfg 0%nat a eq_refl). now rewrite Nat.add_0_r in Hfg.
  - apply IH. intros i b Hi. specialize (Hfg (S i) b Hi).
    now replace (k + S i)%nat with (S k + i)%nat in Hfg by lia.
Qed.

Lemma map_mapiFrom {A B C} (g : B -> C) (f : A -> nat -> B) l k :
  map g (mapiFrom k f l) = mapiFrom k (fun a i => g (f a i)) l.
Proof. revert k; induction l; intros; simpl; [reflexivity|]. now rewrite IHl. Qed.

Lemma nth_map_nth_error {A B} (f : A -> B) (l : list A) i a d :
  nth_error l i = Some a -> nth i (map f l) d = f a.
Proof.
  revert i; induction l as [|b l IH]; intros [|i] Hi; simpl in *; try discriminate.
  - now inversion Hi.
  - now apply IH.
Qed.

Lemma forUpTo_draw2 (a b : Z -> Drawing num) (last : Z) (page : PDFPage num) :
  forUpTo last (fun p i => draw (draw p (a i)) (b i)) page
  = drawAll page (flat_map (fun i => [a i; b i]) (indices last)).
Proof.
  unfold forUpTo, indices.
  generalize (map Z.of_nat (seq 1 (Z.to_nat last))) as l. intros l; revert page.
  induction l as [|i l IH]; intros page; cbn [fold_left flat_map].
  - now rewrite drawAll_nil.
  - rewrite IH, !draw_drawAll, !drawAll_drawAll. reflexivity.
Qed.

Lemma if_drawAll (c : bool) (page : PDFPage num) ds :
  (if c then drawAll page ds else page) = drawAll page (if c then ds else []).
Proof. destruct c; [reflexivity | now rewrite drawAll_nil]. Qed.

Lemma edge_circles_count (distance : num) (f : Z -> list (Drawing num)) :
  (if distance >=? mmToPoints (lit 500)
   then flat_map f (indices (floor (distance / mmToPoints (lit 500))))
   else [])
  = flat_map f (indices (intermediateCount distance)).
Proof. unfold intermediateCount. now destruct (distance >=? mmToPoints (lit 500)). Qed.

(** [generatePDF] issues exactly the drawings of [bannerDrawings], on a page
    of the converted size, once both colour names have given a tuple. *)
Lemma generatePDF_drawings customFont text widthMm heightMm centerText fontSizeMm
    foregroundColor backgroundColor fgC fgM fgY fgK bgC bgM bgY bgK :
  getColor foregroundColor = JSTuple fgC fgM fgY fgK ->
  getColor backgroundColor = JSTuple bgC bgM bgY bgK ->
  generatePDF customFont text widthMm heightMm centerText fontSizeMm
    foregroundColor backgroundColor
  = Ok {| pageSize := (mmToPoints widthMm, mmToPoints heightMm);
          drawings := bannerDrawings customFont text (mmToPoints widthMm) (mmToPoints heightMm)
                        centerText (mmToPoints fontSizeMm)
                        (cmyk fgC fgM fgY fgK) (cmyk bgC bgM bgY bgK) |}.
Proof.
  intros Hfg Hbg. unfold generatePDF. rewrite Hfg, Hbg.
  cbn [destructure bind getSize addPage pageSize].
  f_equal.
  unfold drawRectangle, drawCircle, drawText, forEach.
  cbn [forEachFrom fst snd].
  rewrite !forUpTo_draw2, forEachFrom_drawAll.
  rewrite !draw_drawAll, !if_drawAll, !drawAll_drawAll.
  unfold drawAll, addPage; cbn [pageSize drawings app]. f_equal.
  unfold bannerDrawings.
  cbn [app map cornerCircles]. unfold circleAt at 1 2 3 4.
  do 6 f_equal.
  rewrite !edge_circles_count.
  unfold horizontalCircles, verticalCircles, textRuns, intermediateSpacing, startY,
    totalTextHeight, circleAt.
  rewrite !map_flat_map, map_mapiFrom. cbn [map fst snd].
  do 2 f_equal.
  apply mapiFrom_ext_nth. intros i line Hi. cbn [Nat.add].
  destruct centerText; [|reflexivity].
  now rewrite (nth_map_nth_error _ _ _ _ (lit 0) Hi).
Qed.

(** *** Colour lookup *)

Lemma colors_keys : map fst colors = colorNames.
Proof. reflexivity. Qed.

Lemma ownProperty_None {A} (o : list (string * A)) key :
  ownProperty o key = None <-> ~ In key (map fst o).
Proof.
  induction o as [|[k v] o IH]; simpl.
  - tauto.
  - destruct (String.eqb_spec k key) as [->|Hne].
    + split; [discriminate | intros Hn; exfalso; apply Hn; now left].
    + rewrite IH. split; [intros Hn [Hk|Hin]; [now apply Hne | now apply Hn] | tauto].
Qed.

Lemma ownProperty_Some {A} (o : list (string * A)) key v :
  ownProperty o key = Some v -> In (key, v) o.
Proof.
  induction o as [|[k w] o IH]; simpl; [discriminate|].
  destruct (String.eqb_spec k key) as [->|Hne].
  - intros [= ->]. now left.
  - intros Hv. right. now apply IH.
Qed.

(** No name of the table is a member of [Object.prototype]. *)
Lemma colorNames_not_inherited key :
  In key colorNames -> inherited key = false.
Proof.
  unfold colorNames; simpl.
  intros Hin. repeat (destruct Hin as [<- | Hin]; [reflexivity|]). contradiction.
Qed.

(** The three outcomes of [getColor]. *)
Lemma getColor_own colorName c m y k :
  ownProperty colors colorName = Some (c, m, y, k) ->
  getColor colorName = JSTuple c m y k.
Proof. intros Hown. unfold getColor, getProperty. now rewrite Hown. Qed.

Lemma getColor_inherited colorName :
  inherited colorName = true -> getColor colorName = JSInherited colorName.
Proof.
  intros Hin. unfold getColor, getProperty.
  destruct (ownProperty colors colorName) as [[[[c m] y] k]|] eqn:Hown.
  - apply ownProperty_Some in Hown.
    apply (in_map fst) in Hown. rewrite colors_keys in Hown. simpl fst in Hown.
    apply colorNames_not_inherited in Hown. congruence.
  - now rewrite Hin.
Qed.

Lemma getColor_fallback colorName :
  ownProperty colors colorName = None -> inherited colorName = false ->
  getColor colorName = JSTuple (lit 0) (lit 0) (lit 0) (lit 1).
Proof.
  intros Hown Hin. unfold getColor, getProperty. now rewrite Hown, Hin.
Qed.

Lemma getColor_tuple colorName :
  inherited colorName = false ->
  exists c m y k, getColor colorName = JSTuple c m y k.
Proof.
  intros Hin.
  destruct (ownProperty colors colorName) as [[[[c m] y] k]|] eqn:Hown.
  - exists c, m, y, k. now apply getColor_own.
  - exists (lit 0), (lit 0), (lit 0), (lit 1). now apply getColor_fallback.
Qed.

(** With colour names that are not members of [Object.prototype],
    [generatePDF] returns the page of [bannerDrawings]. *)
Lemma generatePDF_ok customFont text widthMm heightMm centerText fontSizeMm
    foregroundColor backgroundColor :
  inherited foregroundColor = false -> inherited backgroundColor = false ->
  exists fg bg,
    generatePDF customFont text widthMm heightMm centerText fontSizeMm
      foregroundColor backgroundColor
    = Ok {| pageSize := (mmToPoints widthMm, mmToPoints heightMm);
            drawings := bannerDrawings customFont text (mmToPoints widthMm)
                          (mmToPoints heightMm) centerText (mmToPoints fontSizeMm) fg bg |}.
Proof.
  intros Hfg Hbg.
  destruct (getColor_tuple _ Hfg) as (fgC & fgM & fgY & fgK & Efg).
  destruct (getColor_tuple _ Hbg) as (bgC & bgM & bgY & bgK & Ebg).
  exists (cmyk fgC fgM fgY fgK), (cmyk bgC bgM bgY bgK).
  now apply generatePDF_drawings.
Qed.

(** With a foreground or background name inherited from [Object.prototype],
    the destructuring of line 79 or 80 throws before anything is drawn. *)
Lemma generatePDF_throws customFont text widthMm heightMm centerText fontSizeMm
    foregroundColor backgroundColor :
  inherited foregroundColor = true \/ inherited backgroundColor = true ->
  exists message,
    generatePDF customFont text widthMm heightMm centerText fontSizeMm
      foregroundColor backgroundColor = Throw (TypeError message).
Proof.
  intros Hin. unfold generatePDF. cbn [getSize addPage pageSize].
  destruct (inherited foregroundColor) eqn:Hfg.
  - rewrite (getColor_inherited _ Hfg). cbn. eauto.
  - destruct Hin as [Hin|Hbg]; [discriminate|].
    destruct (getColor_tuple _ Hfg) as (c & m & y & k & Efg).
    rewrite Efg, (getColor_inherited _ Hbg). cbn. eauto.
Qed.

Lemma generatePDF_Ok_inv customFont text widthMm heightMm centerText fontSizeMm
    foregroundColor backgroundColor page :
  generatePDF customFont text widthMm heightMm centerText fontSizeMm
    foregroundColor backgroundColor = Ok page ->
  inherited foregroundColor = false /\ inherited backgroundColor = false.
Proof.
  intros Hrun.
  destruct (inherited foregroundColor) eqn:Hfg.
  - destruct (generatePDF_throws customFont text widthMm heightMm centerText fontSizeMm
                foregroundColor backgroundColor (or_introl Hfg)) as [m Hm].
    congruence.
  - destruct (inherited backgroundColor) eqn:Hbg; [|split; reflexivity].
    destruct (generatePDF_throws customFont text widthMm heightMm centerText fontSizeMm
                foregroundColor backgroundColor (or_intror Hbg)) as [m Hm].
    congruence.
Qed.

(** The views of a page of [bannerDrawings]. *)
Lemma flat_map_app_list {A B} (f : A -> list B) l1 l2 :
  flat_map f (l1 ++ l2) = flat_map f l1 ++ flat_map f l2.
Proof. induction l1; simpl; [reflexivity|]. now rewrite IHl1, app_assoc. Qed.

Lemma flat_map_map_nil {A B C} (g : A -> B) (f : B -> list C) l :
  (forall a, f (g a) = []) -> flat_map f (map g l) = [].
Proof. intros Hf. induction l; simpl; [reflexivity|]. now rewrite Hf, IHl. Qed.

Lemma flat_map_map_single {A B C} (g : A -> B) (f : B -> list C) (h : A -> C) l :
  (forall a, f (g a) = [h a]) -> flat_map f (map g l) = map h l.
Proof. intros Hf. induction l; simpl; [reflexivity|]. now rewrite Hf, IHl. Qed.

Lemma circlesOf_banner size customFont text width height centerText fontSize fg bg :
  circlesOf {| pageSize := size;
               drawings := bannerDrawings customFont text width height centerText fontSize fg bg |}
  = cornerCircles width height fg ++ horizontalCircles width height fg
    ++ verticalCircles width height fg.
Proof.
  unfold circlesOf, bannerDrawings. cbn [drawings].
  rewrite !flat_map_app_list. cbn [flat_map app].
  rewrite !(flat_map_map_single _ _ (fun o => o)), !map_id by reflexivity.
  rewrite flat_map_map_nil by reflexivity.
  now rewrite !app_nil_r.
Qed.

Lemma rectanglesOf_banner size customFont text width height centerText fontSize fg bg :
  rectanglesOf {| pageSize := size;
                  drawings := bannerDrawings customFont text width height centerText fontSize fg bg |}
  = [ baseRectangle width height; panelRectangle width height fg bg ].
Proof.
  unfold rectanglesOf, bannerDrawings. cbn [drawings].
  rewrite !flat_map_app_list. cbn [flat_map app].
  now rewrite !flat_map_map_nil by reflexivity.
Qed.

Lemma textsOf_banner size customFont text width height centerText fontSize fg bg :
  textsOf {| pageSize := size;
             drawings := bannerDrawings customFont text width height centerText fontSize fg bg |}
  = textRuns customFont (split newline text) centerText width height fontSize fg.
Proof.
  unfold textsOf, bannerDrawings. cbn [drawings].
  rewrite !flat_map_app_list. cbn [flat_map app].
  rewrite !flat_map_map_nil by reflexivity.
  rewrite (flat_map_map_single _ _ (fun o => o)), map_id; [reflexivity|].
  now intros [t o].
Qed.

(** Every circle has the fixed radius and the foreground colour; every text
    run has the foreground colour. *)
Lemma banner_circles_uniform (width height : num) fg :
  Forall (fun c => circle_size c = mmToPoints (lit 6) /\ circle_color c = fg)
         (cornerCircles width height fg ++ horizontalCircles width height fg
          ++ verticalCircles width height fg).
Proof.
  apply Forall_app; split; [repeat constructor|].
  apply Forall_app; split; apply Forall_forall; intros c Hc;
    unfold horizontalCircles, verticalCircles in Hc;
    apply in_flat_map in Hc; destruct Hc as [i [_ [<-|[<-|[]]]]]; split; reflexivity.
Qed.

Lemma banner_texts_uniform customFont lines centerText (width height fontSize : num) fg :
  Forall (fun run => text_color (snd run) = fg)
         (textRuns customFont lines centerText width height fontSize fg).
Proof. unfold textRuns. now apply Forall_mapiFrom. Qed.

End LayoutLemmas.

(** ** Exact arithmetic *)

Module Exact.

Local Open Scope Q_scope.

(** Unfolds the arithmetic of the interface to the operations of [Q]. *)
Ltac to_Q :=
  unfold mmToPoints, pointsToMm, ofNat, ofZ in *;
  cbn [lit add sub mul div QNumber] in *.

Lemma mmToPoints_scale (mm : Q) : mmToPoints mm == mm * (360 # 127).
Proof. to_Q. field. Qed.

Lemma pointsToMm_scale (points : Q) : pointsToMm points == points * (127 # 360).
Proof. to_Q. field. Qed.

#[export] Instance mmToPoints_Proper : Proper (Qeq ==> Qeq) (mmToPoints (num := Q)).
Proof. intros a b Hab. now rewrite !mmToPoints_scale, Hab. Qed.

#[export] Instance pointsToMm_Proper : Proper (Qeq ==> Qeq) (pointsToMm (num := Q)).
Proof. intros a b Hab. now rewrite !pointsToMm_scale, Hab. Qed.

Lemma mmToPoints_le (a b : Q) : a <= b <-> mmToPoints a <= mmToPoints b.
Proof. rewrite !mmToPoints_scale. split; intros Hab; lra. Qed.

Lemma mmToPoints_lt (a b : Q) : a < b <-> mmToPoints a < mmToPoints b.
Proof. rewrite !mmToPoints_scale. split; intros Hab; lra. Qed.

Lemma pointsToMm_mmToPoints (mm : Q) : pointsToMm (mmToPoints mm) == mm.
Proof. rewrite pointsToMm_scale, mmToPoints_scale. field. Qed.

(** *** Intermediate circles *)

Lemma edgeDistance_span dimension_mm :
  edgeDistance dimension_mm == mmToPoints (span dimension_mm).
Proof. unfold edgeDistance, span. rewrite !mmToPoints_scale. ring. Qed.

Lemma edgeDistance_ratio dimension_mm :
  edgeDistance dimension_mm / mmToPoints 500 == span dimension_mm / 500.
Proof. rewrite edgeDistance_span, !mmToPoints_scale. field. Qed.

Lemma edgeDistance_geb dimension_mm :
  (edgeDistance dimension_mm >=? mmToPoints 500)%num = true <-> 500 <= span dimension_mm.
Proof.
  cbn [geb QNumber]. rewrite Qle_bool_iff, edgeDistance_span.
  symmetry. apply mmToPoints_le.
Qed.

Lemma intermediateCount_exact dimension_mm :
  intermediateCount (edgeDistance dimension_mm) = documented_count dimension_mm.
Proof.
  unfold intermediateCount, documented_count. change (lit 500) with 500.
  destruct (Qlt_le_dec (span dimension_mm) 500) as [Hlt|Hle].
  - destruct (edgeDistance dimension_mm >=? mmToPoints 500)%num eqn:Hge; [|reflexivity].
    apply edgeDistance_geb in Hge. lra.
  - apply edgeDistance_geb in Hle. rewrite Hle.
    cbn [floor QNumber]. apply Qfloor_comp, edgeDistance_ratio.
Qed.

Lemma documented_count_positive dimension_mm :
  500 <= span dimension_mm -> (1 <= documented_count dimension_mm)%Z.
Proof.
  intros Hle. unfold documented_count.
  destruct (Qlt_le_dec (span dimension_mm) 500) as [Hlt|_]; [lra|].
  change 1%Z with (Qfloor 1). apply Qfloor_resp_le.
  apply Qle_shift_div_l; lra.
Qed.

Lemma intermediateSpacing_exact dimension_mm :
  500 <= span dimension_mm ->
  intermediateSpacing (edgeDistance dimension_mm)
  == mmToPoints (span dimension_mm / (inject_Z (documented_count dimension_mm) + 1)).
Proof.
  intros Hle. pose proof (documented_count_positive _ Hle) as Hpos.
  rewrite <- intermediateCount_exact in *.
  unfold intermediateCount, intermediateSpacing in *.
  change (@lit Q QNumber 500) with 500 in *.
  apply edgeDistance_geb in Hle. rewrite Hle in Hpos |- *.
  match goal with |- context [floor ?t] => generalize dependent (floor t) end.
  intros n Hn. rewrite Zle_Qle in Hn. change (inject_Z 1) with 1 in Hn.
  to_Q. rewrite edgeDistance_span. to_Q. change (inject_Z 1) with 1 in *.
  field. lra.
Qed.

Lemma In_indices i last : In i (indices last) <-> (1 <= i <= last)%Z.
Proof.
  unfold indices. rewrite in_map_iff. split.
  - intros [k [<- Hk]]. apply in_seq in Hk. lia.
  - intros Hi. exists (Z.to_nat i). split; [lia | apply in_seq; lia].
Qed.

(** An interior offset lies strictly inside the distance it divides. *)
Lemma interior_offset_bounds (distance : Q) (n i : Z) :
  0 < distance -> (1 <= i <= n)%Z ->
  0 < inject_Z i * (distance / (inject_Z n + 1)) < distance.
Proof.
  intros Hd [Hi Hn].
  assert (Hi' : 1 <= inject_Z i) by (change 1 with (inject_Z 1); now rewrite <- Zle_Qle).
  assert (Hn' : inject_Z i <= inject_Z n) by now rewrite <- Zle_Qle.
  set (s := distance / (inject_Z n + 1)).
  assert (Hs : 0 < s) by (apply Qlt_shift_div_l; lra).
  assert (Hd' : distance == (inject_Z n + 1) * s) by (unfold s; field; lra).
  clearbody s. split; nra.
Qed.

Lemma minDistance_positive : 0 < mmToPoints 500.
Proof. rewrite mmToPoints_scale. lra. Qed.

(** An intermediate circle [c] drawn for the loop index of [Hi]: its
    coordinate along the edge is the corner offset plus an interior offset. *)
Ltac interior_circle Hi Hc c coordinate :=
  let Hge := fresh "Hge" in
  let Hmin := fresh "Hmin" in
  let Hbounds := fresh "Hbounds" in
  let Hxy := fresh "Hxy" in
  let Hsize := fresh "Hsize" in
  apply In_indices in Hi; unfold intermediateCount in Hi;
  destruct (geb _ _) eqn:Hge in Hi; [|lia];
  cbn [geb QNumber] in Hge; apply Qle_bool_iff in Hge;
  pose proof minDistance_positive as Hmin;
  change (@lit Q QNumber 500) with 500 in Hge;
  unfold intermediateSpacing in Hc; change (@lit Q QNumber 500) with 500 in Hc;
  match type of Hi with (_ <= ?i <= ?n)%Z =>
    match type of Hge with _ <= ?d =>
      pose proof (interior_offset_bounds d n i ltac:(lra) Hi) as Hbounds;
      assert (Hxy : coordinate = mmToPoints 37.5 + inject_Z i * (d / (inject_Z n + 1))
                    /\ circle_size c = mmToPoints 6)
        by (destruct Hc as [<-|[<-|[]]]; split; reflexivity)
    end
  end;
  destruct Hxy as [-> Hsize]; split; [exact Hsize|];
  cbn [lit add sub mul div QNumber] in *; lra.

(** Every intermediate circle has the fixed radius and lies strictly between
    the two corner circles of its edge. *)
Lemma horizontalCircles_interior (width height : Q) fg c :
  In c (horizontalCircles width height fg) ->
  circle_size c = mmToPoints 6 /\
  mmToPoints 37.5 < circle_x c < width - mmToPoints 37.5.
Proof.
  unfold horizontalCircles. rewrite in_flat_map. intros [i [Hi Hc]].
  interior_circle Hi Hc c (circle_x c).
Qed.

Lemma verticalCircles_interior (width height : Q) fg c :
  In c (verticalCircles width height fg) ->
  circle_size c = mmToPoints 6 /\
  mmToPoints 37.5 < circle_y c < height - mmToPoints 37.5.
Proof.
  unfold verticalCircles. rewrite in_flat_map. intros [i [Hi Hc]].
  interior_circle Hi Hc c (circle_y c).
Qed.

(** *** Corner circles *)

(** The corner circles in exact arithmetic.  For every width and height
    (and colour names that the lookup resolves to a tuple), the circles of
    the page start with the four corner circles, centred exactly 37.5 mm
    (converted) from the two page edges of their corner: at (37.5, 37.5),
    (width - 37.5, 37.5), (37.5, height - 37.5) and
    (width - 37.5, height - 37.5).  Every circle of the page has the radius of
    6 mm (a diameter of 12 mm), and no other circle is a corner circle: each
    of the remaining ones lies strictly between two corner circles along its
    edge.  (In binary64 the subtractions round: [AsComputed].) *)
Theorem corner_circles_invariant customFont text widthMm heightMm centerText fontSizeMm
    foregroundColor backgroundColor :
  inherited foregroundColor = false -> inherited backgroundColor = false ->
  exists page c1 c2 c3 c4 others,
    generatePDF customFont text widthMm heightMm centerText fontSizeMm
      foregroundColor backgroundColor = Ok page /\
    pageSize page = (mmToPoints widthMm, mmToPoints heightMm) /\
    circlesOf page = c1 :: c2 :: c3 :: c4 :: others /\
    (circle_x c1 == mmToPoints 37.5 /\ circle_y c1 == mmToPoints 37.5) /\
    (circle_x c2 == mmToPoints (widthMm - 37.5) /\ circle_y c2 == mmToPoints 37.5) /\
    (circle_x c3 == mmToPoints 37.5 /\ circle_y c3 == mmToPoints (heightMm - 37.5)) /\
    (circle_x c4 == mmToPoints (widthMm - 37.5) /\
     circle_y c4 == mmToPoints (heightMm - 37.5)) /\
    (mmToPoints widthMm - circle_x c2 == mmToPoints 37.5 /\
     mmToPoints heightMm - circle_y c3 == mmToPoints 37.5 /\
     mmToPoints widthMm - circle_x c4 == mmToPoints 37.5 /\
     mmToPoints heightMm - circle_y c4 == mmToPoints 37.5) /\
    Forall (fun c => circle_size c = mmToPoints 6 /\ 2 * circle_size c == mmToPoints 12)
           (circlesOf page) /\
    Forall (fun c =>
              mmToPoints 37.5 < circle_x c < mmToPoints widthMm - mmToPoints 37.5 \/
              mmToPoints 37.5 < circle_y c < mmToPoints heightMm - mmToPoints 37.5) others.
Proof.
  intros Hfg Hbg.
  destruct (generatePDF_ok customFont text widthMm heightMm centerText fontSizeMm
              _ _ Hfg Hbg) as (fg & bg & Hpage).
  eexists. do 5 eexists.
  split; [exact Hpage|]. split; [reflexivity|].
  rewrite circlesOf_banner. cbn [cornerCircles app].
  split; [reflexivity|].
  cbn [circleAt circle_x circle_y].
  assert (Hsize : forall c : CircleOptions Q,
            circle_size c = mmToPoints 6 ->
            circle_size c = mmToPoints 6 /\ 2 * circle_size c == mmToPoints 12).
  { intros c ->. split; [reflexivity | rewrite !mmToPoints_scale; ring]. }
  repeat split; try reflexivity; try (rewrite !mmToPoints_scale; to_Q; ring).
  - repeat (constructor; [now apply Hsize|]).
    apply Forall_app; split; apply Forall_forall; intros c Hc; apply Hsize.
    + now apply horizontalCircles_interior in Hc.
    + now apply verticalCircles_interior in Hc.
  - apply Forall_app; split; apply Forall_forall; intros c Hc.
    + left. now apply horizontalCircles_interior in Hc.
    + right. now apply verticalCircles_interior in Hc.
Qed.

Lemma corner_circles_invariant_witness :
  exists page c1 c2 c3 c4 others,
    generatePDF sampleFont "Banner PVC" 1000 700 true 25 "black" "yellow" = Ok page /\
    pageSize page = (mmToPoints 1000, mmToPoints 700) /\
    circlesOf page = c1 :: c2 :: c3 :: c4 :: others /\
    (circle_x c1 == mmToPoints 37.5 /\ circle_y c1 == mmToPoints 37.5) /\
    (circle_x c2 == mmToPoints (1000 - 37.5) /\ circle_y c2 == mmToPoints 37.5) /\
    (circle_x c3 == mmToPoints 37.5 /\ circle_y c3 == mmToPoints (700 - 37.5)) /\
    (circle_x c4 == mmToPoints (1000 - 37.5) /\
     circle_y c4 == mmToPoints (700 - 37.5)) /\
    (mmToPoints 1000 - circle_x c2 == mmToPoints 37.5 /\
     mmToPoints 700 - circle_y c3 == mmToPoints 37.5 /\
     mmToPoints 1000 - circle_x c4 == mmToPoints 37.5 /\
     mmToPoints 700 - circle_y c4 == mmToPoints 37.5) /\
    Forall (fun c => circle_size c = mmToPoints 6 /\ 2 * circle_size c == mmToPoints 12)
           (circlesOf page) /\
    Forall (fun c =>
              mmToPoints 37.5 < circle_x c < mmToPoints 1000 - mmToPoints 37.5 \/
              mmToPoints 37.5 < circle_y c < mmToPoints 700 - mmToPoints 37.5) others.
Proof.
  apply (corner_circles_invariant sampleFont "Banner PVC" 1000 700 true 25 "black" "yellow");
    reflexivity.
Defined.

(** *** The panel *)

(** The panel in exact arithmetic.  For every width and height, also below
    twice the margin (and colour names that the lookup resolves to a tuple),
    the second rectangle of the page, the panel, has its corner at
    (25 mm, 25 mm), the width [widthMm - 2 * 25] and the height
    [heightMm - 2 * 25] in converted units, and a border 0.5 mm thick; below
    twice the margin the panel's width or height is negative.  (In binary64
    the subtractions round: [AsComputed].) *)
Theorem panel_placement customFont text widthMm heightMm centerText fontSizeMm
    foregroundColor backgroundColor :
  inherited foregroundColor = false -> inherited backgroundColor = false ->
  exists page base panel,
    generatePDF customFont text widthMm heightMm centerText fontSizeMm
      foregroundColor backgroundColor = Ok page /\
    rectanglesOf page = [base; panel] /\
    rect_x panel == mmToPoints 25 /\
    rect_y panel == mmToPoints 25 /\
    rect_width panel == mmToPoints (widthMm - 2 * 25) /\
    rect_height panel == mmToPoints (heightMm - 2 * 25) /\
    rect_borderWidth panel = Some (mmToPoints 0.5) /\
    (widthMm < 2 * 25 -> rect_width panel < 0) /\
    (heightMm < 2 * 25 -> rect_height panel < 0).
Proof.
  intros Hfg Hbg.
  destruct (generatePDF_ok customFont text widthMm heightMm centerText fontSizeMm
              _ _ Hfg Hbg) as (fg & bg & Hpage).
  eexists. do 2 eexists.
  split; [exact Hpage|].
  rewrite rectanglesOf_banner. split; [reflexivity|].
  cbn [panelRectangle rect_x rect_y rect_width rect_height rect_borderWidth].
  repeat split; try reflexivity.
  - rewrite !mmToPoints_scale; to_Q; ring.
  - rewrite !mmToPoints_scale; to_Q; ring.
  - intros Hw. rewrite !mmToPoints_scale; to_Q. lra.
  - intros Hh. rewrite !mmToPoints_scale; to_Q. lra.
Qed.

Lemma panel_placement_witness :
  exists page base panel,
    generatePDF sampleFont "Banner PVC" 40 30 true 25 "black" "yellow" = Ok page /\
    rectanglesOf page = [base; panel] /\
    rect_x panel == mmToPoints 25 /\
    rect_y panel == mmToPoints 25 /\
    rect_width panel == mmToPoints (40 - 2 * 25) /\
    rect_height panel == mmToPoints (30 - 2 * 25) /\
    rect_borderWidth panel = Some (mmToPoints 0.5) /\
    (40 < 2 * 25 -> rect_width panel < 0) /\
    (30 < 2 * 25 -> rect_height panel < 0).
Proof.
  apply (panel_placement sampleFont "Banner PVC" 40 30 true 25 "black" "yellow");
    reflexivity.
Defined.

(** *** Text *)

Lemma textRuns_nth_error customFont lines centerText (width height fontSize : Q) fg i run :
  nth_error (textRuns customFont lines centerText width height fontSize fg) i = Some run ->
  nth_error lines i = Some (fst run) /\
  text_x (snd run) =
    (if centerText then (width - widthOfTextAtSize customFont (fst run) fontSize) / 2
     else mmToPoints (25 + 5)) /\
  text_y (snd run) =
    startY centerText height fontSize (List.length lines)
    - inject_Z (Z.of_nat i) * (fontSize * 1.3).
Proof.
  unfold textRuns. rewrite mapiFrom_nth_error.
  destruct (nth_error lines i) as [line|]; [|discriminate].
  cbn [option_map Nat.add]. intros [= <-]. repeat split.
Qed.

Lemma map_fst_mapiFrom {A B} (f : A -> nat -> A * B) (l : list A) k :
  (forall a i, fst (f a i) = a) -> map fst (mapiFrom k f l) = l.
Proof.
  intros Hf. revert k; induction l as [|a l IH]; intros k; simpl; [reflexivity|].
  now rewrite Hf, IH.
Qed.

Lemma textRuns_lines customFont lines centerText (width height fontSize : Q) fg :
  map fst (textRuns customFont lines centerText width height fontSize fg) = lines.
Proof. unfold textRuns. now apply map_fst_mapiFrom. Qed.

(** C8.  Left-aligned mode ([centerText = false]): there is one text run per
    line; the baseline of the first is the page height minus 25 mm
    (converted), and every run starts at the same x, [mmToPoints (25 + 5)],
    which is 30 mm converted, whatever the line or its width. *)
Theorem left_aligned_layout customFont text widthMm heightMm fontSizeMm
    foregroundColor backgroundColor :
  inherited foregroundColor = false -> inherited backgroundColor = false ->
  exists page first rest,
    generatePDF customFont text widthMm heightMm false fontSizeMm
      foregroundColor backgroundColor = Ok page /\
    map fst (textsOf page) = split newline text /\
    textsOf page = first :: rest /\
    text_y (snd first) == mmToPoints heightMm - mmToPoints 25 /\
    mmToPoints (25 + 5) == mmToPoints 30 /\
    Forall (fun run => text_x (snd run) = mmToPoints (25 + 5)) (textsOf page).
Proof.
  intros Hfg Hbg.
  destruct (generatePDF_ok customFont text widthMm heightMm false fontSizeMm
              _ _ Hfg Hbg) as (fg & bg & Hpage).
  pose proof (textsOf_banner (mmToPoints widthMm, mmToPoints heightMm) customFont text
                (mmToPoints widthMm) (mmToPoints heightMm) false (mmToPoints fontSizeMm)
                fg bg) as Htexts.
  destruct (textsOf _) as [|first rest] eqn:Eruns in Htexts.
  { apply (f_equal (@List.length _)) in Htexts. unfold textRuns in Htexts.
    rewrite mapiFrom_length, split_length in Htexts. discriminate. }
  eexists. exists first, rest.
  split; [exact Hpage|]. rewrite Eruns, Htexts.
  split; [apply textRuns_lines|].
  split; [reflexivity|].
  split.
  - assert (H0 : nth_error (first :: rest) 0 = Some first) by reflexivity.
    rewrite Htexts in H0. apply textRuns_nth_error in H0.
    destruct H0 as (_ & _ & ->). unfold startY. to_Q. ring.
  - split; [reflexivity|].
    apply Forall_forall. intros run Hrun.
    apply In_nth_error in Hrun. destruct Hrun as [i Hi].
    apply textRuns_nth_error in Hi. now destruct Hi as (_ & -> & _).
Qed.

Lemma left_aligned_layout_witness :
  exists page first rest,
    generatePDF sampleFont "Banner PVC" 1000 700 false 25 "black" "yellow" = Ok page /\
    map fst (textsOf page) = split newline "Banner PVC" /\
    textsOf page = first :: rest /\
    text_y (snd first) == mmToPoints 700 - mmToPoints 25 /\
    mmToPoints (25 + 5) == mmToPoints 30 /\
    Forall (fun run => text_x (snd run) = mmToPoints (25 + 5)) (textsOf page).
Proof.
  apply (left_aligned_layout sampleFont "Banner PVC" 1000 700 25 "black" "yellow");
    reflexivity.
Defined.

(** C2.  Centred mode ([centerText = true]): the baseline of the first line
    is [pageHeight/2 + totalTextHeight/2 - fontSize*0.35 - lineSpacing*0.5]
    with [lineSpacing = fontSize*1.3] and
    [totalTextHeight = (numberOfLines - 1)*lineSpacing + fontSize], and every
    line starts at [(pageWidth - lineWidth)/2] for the measured width of that
    line alone. *)
Theorem centered_layout customFont text widthMm heightMm fontSizeMm
    foregroundColor backgroundColor :
  inherited foregroundColor = false -> inherited backgroundColor = false ->
  let pageWidth := mmToPoints widthMm in
  let pageHeight := mmToPoints heightMm in
  let fontSize := mmToPoints fontSizeMm in
  let lineSpacing := fontSize * 1.3 in
  let numberOfLines := inject_Z (Z.of_nat (List.length (split newline text))) in
  let totalTextHeight := (numberOfLines - 1) * lineSpacing + fontSize in
  exists page first rest,
    generatePDF customFont text widthMm heightMm true fontSizeMm
      foregroundColor backgroundColor = Ok page /\
    map fst (textsOf page) = split newline text /\
    textsOf page = first :: rest /\
    text_y (snd first)
      == pageHeight / 2 + totalTextHeight / 2 - fontSize * 0.35 - lineSpacing * 0.5 /\
    Forall (fun run =>
              text_x (snd run)
              = (pageWidth - widthOfTextAtSize customFont (fst run) fontSize) / 2)
           (textsOf page).
Proof.
  intros Hfg Hbg. cbv zeta.
  destruct (generatePDF_ok customFont text widthMm heightMm true fontSizeMm
              _ _ Hfg Hbg) as (fg & bg & Hpage).
  pose proof (textsOf_banner (mmToPoints widthMm, mmToPoints heightMm) customFont text
                (mmToPoints widthMm) (mmToPoints heightMm) true (mmToPoints fontSizeMm)
                fg bg) as Htexts.
  destruct (textsOf _) as [|first rest] eqn:Eruns in Htexts.
  { apply (f_equal (@List.length _)) in Htexts. unfold textRuns in Htexts.
    rewrite mapiFrom_length, split_length in Htexts. discriminate. }
  eexists. exists first, rest.
  split; [exact Hpage|]. rewrite Eruns, Htexts.
  split; [apply textRuns_lines|].
  split; [reflexivity|].
  split.
  - assert (H0 : nth_error (first :: rest) 0 = Some first) by reflexivity.
    rewrite Htexts in H0. apply textRuns_nth_error in H0.
    destruct H0 as (_ & _ & ->). unfold startY, totalTextHeight. to_Q. ring.
  - apply Forall_forall. intros run Hrun.
    apply In_nth_error in Hrun. destruct Hrun as [i Hi].
    apply textRuns_nth_error in Hi. now destruct Hi as (_ & -> & _).
Qed.

Lemma centered_layout_witness :
  let text := String "A" (String newline "BCD") in
  let pageWidth := mmToPoints 1000 in
  let pageHeight := mmToPoints 700 in
  let fontSize := mmToPoints 25 in
  let lineSpacing := fontSize * 1.3 in
  let numberOfLines := inject_Z (Z.of_nat (List.length (split newline text))) in
  let totalTextHeight := (numberOfLines - 1) * lineSpacing + fontSize in
  exists page first rest,
    generatePDF sampleFont text 1000 700 true 25 "black" "yellow" = Ok page /\
    map fst (textsOf page) = split newline text /\
    textsOf page = first :: rest /\
    text_y (snd first)
      == pageHeight / 2 + totalTextHeight / 2 - fontSize * 0.35 - lineSpacing * 0.5 /\
    Forall (fun run =>
              text_x (snd run)
              = (pageWidth - widthOfTextAtSize sampleFont (fst run) fontSize) / 2)
           (textsOf page).
Proof.
  apply (centered_layout sampleFont (String "A" (String newline "BCD")) 1000 700 25
           "black" "yellow"); reflexivity.
Defined.
(** The text lines in exact arithmetic.  A text with k line-break characters
    gives exactly k+1 text runs, one per line of the split (empty lines
    included) and in the order of the lines; run i has its baseline at
    [startY - i*lineSpacing], so from one run to the next the baseline goes
    down by exactly [lineSpacing = fontSize*1.3] (strictly down for a
    positive font size); a text without a line break gives one run, and the
    height of its block is [fontSize].  (In binary64 the step rounds:
    [AsComputed].) *)
Theorem text_line_progression customFont text widthMm heightMm centerText fontSizeMm
    foregroundColor backgroundColor :
  inherited foregroundColor = false -> inherited backgroundColor = false ->
  let fontSize := mmToPoints fontSizeMm in
  let lineSpacing := fontSize * 1.3 in
  let lines := split newline text in
  exists page,
    generatePDF customFont text widthMm heightMm centerText fontSizeMm
      foregroundColor backgroundColor = Ok page /\
    List.length (textsOf page) = S (occurrences newline text) /\
    map fst (textsOf page) = lines /\
    (forall i run, nth_error (textsOf page) i = Some run ->
       text_y (snd run)
       == startY centerText (mmToPoints heightMm) fontSize (List.length lines)
          - inject_Z (Z.of_nat i) * lineSpacing) /\
    (forall i run next,
       nth_error (textsOf page) i = Some run ->
       nth_error (textsOf page) (S i) = Some next ->
       text_y (snd run) - text_y (snd next) == lineSpacing /\
       (0 < fontSizeMm -> text_y (snd next) < text_y (snd run))) /\
    (occurrences newline text = 0%nat ->
       List.length (textsOf page) = 1%nat /\
       totalTextHeight fontSize (List.length lines) == fontSize).
Proof.
  intros Hfg Hbg. cbv zeta.
  destruct (generatePDF_ok customFont text widthMm heightMm centerText fontSizeMm
              _ _ Hfg Hbg) as (fg & bg & Hpage).
  eexists. split; [exact Hpage|].
  rewrite textsOf_banner.
  assert (Hlen : List.length
            (textRuns customFont (split newline text) centerText (mmToPoints widthMm)
               (mmToPoints heightMm) (mmToPoints fontSizeMm) fg)
          = S (occurrences newline text)).
  { unfold textRuns. now rewrite mapiFrom_length, split_length. }
  split; [exact Hlen|].
  split; [apply textRuns_lines|].
  split; [|split].
  - intros i run Hi. apply textRuns_nth_error in Hi.
    destruct Hi as (_ & _ & ->). reflexivity.
  - intros i run next Hi Hnext.
    apply textRuns_nth_error in Hi. destruct Hi as (_ & _ & ->).
    apply textRuns_nth_error in Hnext. destruct Hnext as (_ & _ & ->).
    rewrite Nat2Z.inj_succ. unfold Z.succ. rewrite inject_Z_plus.
    change (inject_Z 1) with 1.
    split; [ring|].
    intros Hfont. apply mmToPoints_lt in Hfont.
    assert (H0 : mmToPoints 0 == 0) by (rewrite mmToPoints_scale; ring).
    rewrite H0 in Hfont. lra.
  - intros Hk. rewrite Hlen, split_length, Hk. split; [reflexivity|].
    unfold totalTextHeight. to_Q. change (inject_Z (Z.of_nat 1)) with 1. ring.
Qed.

Lemma text_line_progression_witness :
  let text := String "A" (String newline (String newline "BCD")) in
  let fontSize := mmToPoints 25 in
  let lineSpacing := fontSize * 1.3 in
  let lines := split newline text in
  exists page,
    generatePDF sampleFont text 1000 700 true 25 "black" "yellow" = Ok page /\
    List.length (textsOf page) = S (occurrences newline text) /\
    map fst (textsOf page) = lines /\
    (forall i run, nth_error (textsOf page) i = Some run ->
       text_y (snd run)
       == startY true (mmToPoints 700) fontSize (List.length lines)
          - inject_Z (Z.of_nat i) * lineSpacing) /\
    (forall i run next,
       nth_error (textsOf page) i = Some run ->
       nth_error (textsOf page) (S i) = Some next ->
       text_y (snd run) - text_y (snd next) == lineSpacing /\
       (0 < 25 -> text_y (snd next) < text_y (snd run))) /\
    (occurrences newline text = 0%nat ->
       List.length (textsOf page) = 1%nat /\
       totalTextHeight fontSize (List.length lines) == fontSize).
Proof.
  apply (text_line_progression sampleFont
           (String "A" (String newline (String newline "BCD"))) 1000 700 true 25
           "black" "yellow"); reflexivity.
Defined.

(** *** Spacing of the intermediate circles *)

(** The spacing in exact arithmetic.  For a span of at least 500 mm, with
    [count = floor (span / 500)], the spacing the program computes is
    [span / (count + 1)] and is at least [500 * count / (count + 1)]; it can
    be below 500 mm: the span 2925 mm (a dimension of 3000 mm) gives five
    circles 487.5 mm apart.  (In binary64 the count is one short at some
    spans that are multiples of 500: [Double], [AsComputed].) *)
Theorem spacing_bound :
  (forall dimension_mm,
     500 <= span dimension_mm ->
     let count := intermediateCount (edgeDistance dimension_mm) in
     let spacing := pointsToMm (intermediateSpacing (edgeDistance dimension_mm)) in
     count = Qfloor (span dimension_mm / 500) /\
     spacing == span dimension_mm / (inject_Z count + 1) /\
     500 * inject_Z count / (inject_Z count + 1) <= spacing) /\
  (span 3000 == 2925 /\
   intermediateCount (edgeDistance 3000) = 5%Z /\
   pointsToMm (intermediateSpacing (edgeDistance 3000)) == 487.5 /\
   pointsToMm (intermediateSpacing (edgeDistance 3000)) < 500).
Proof.
  split.
  - intros dimension_mm Hspan. cbv zeta.
    pose proof (documented_count_positive _ Hspan) as Hpos.
    rewrite intermediateCount_exact, (intermediateSpacing_exact _ Hspan),
      pointsToMm_mmToPoints.
    unfold documented_count in *.
    destruct (Qlt_le_dec (span dimension_mm) 500) as [Hlt|_]; [lra|].
    split; [reflexivity|]. split; [reflexivity|].
    set (n := Qfloor (span dimension_mm / 500)) in *.
    assert (Hn : 1 <= inject_Z n)
      by (change 1 with (inject_Z 1); now rewrite <- Zle_Qle).
    assert (Hfloor : inject_Z n <= span dimension_mm / 500) by apply Qfloor_le.
    assert (Hle : 500 * inject_Z n <= span dimension_mm).
    { apply (Qmult_le_compat_r _ _ 500) in Hfloor; [|lra].
      assert (E : span dimension_mm / 500 * 500 == span dimension_mm) by field.
      rewrite E in Hfloor. lra. }
    unfold Qdiv. apply Qmult_le_compat_r; [exact Hle|].
    apply Qinv_le_0_compat. lra.
  - repeat split; vm_compute; reflexivity.
Qed.

Lemma spacing_bound_witness :
  500 <= span 3000 /\
  (let count := intermediateCount (edgeDistance 3000) in
   let spacing := pointsToMm (intermediateSpacing (edgeDistance 3000)) in
   count = Qfloor (span 3000 / 500) /\
   spacing == span 3000 / (inject_Z count + 1) /\
   500 * inject_Z count / (inject_Z count + 1) <= spacing).
Proof.
  split; [vm_compute; discriminate | apply (proj1 spacing_bound 3000); vm_compute; discriminate].
Defined.

(** *** The documented distribution, in exact arithmetic *)

Lemma Forall2_flat_map {A B C} (R : B -> C -> Prop) (f : A -> list B) (g : A -> list C) l :
  (forall a, In a l -> Forall2 R (f a) (g a)) ->
  Forall2 R (flat_map f l) (flat_map g l).
Proof.
  induction l as [|a l IH]; intros Hfg; simpl; [constructor|].
  apply Forall2_app; [apply Hfg; now left | apply IH; intros b Hb; apply Hfg; now right].
Qed.

Lemma documented_count_span dimension_mm i :
  (1 <= i <= documented_count dimension_mm)%Z -> 500 <= span dimension_mm.
Proof.
  unfold documented_count.
  destruct (Qlt_le_dec (span dimension_mm) 500) as [Hlt|Hle]; [lia | intros _; exact Hle].
Qed.

Lemma interior_offset_exact dimension_mm i :
  (1 <= i <= documented_count dimension_mm)%Z ->
  mmToPoints 37.5 + inject_Z i * intermediateSpacing (edgeDistance dimension_mm)
  == mmToPoints (documented_offset dimension_mm i).
Proof.
  intros Hi. apply documented_count_span in Hi.
  rewrite (intermediateSpacing_exact _ Hi). unfold documented_offset.
  rewrite !mmToPoints_scale. ring.
Qed.

(** In exact arithmetic the circles of the page are, centre by centre and in
    order, the documented ones; 3000 by 700 mm gives five circles per
    horizontal edge, 487.5 mm apart, and one per vertical edge, 312.5 mm from
    the corners. *)
Theorem intermediate_distribution_exact customFont text widthMm heightMm centerText
    fontSizeMm foregroundColor backgroundColor :
  inherited foregroundColor = false -> inherited backgroundColor = false ->
  exists page,
    generatePDF customFont text widthMm heightMm centerText fontSizeMm
      foregroundColor backgroundColor = Ok page /\
    Forall2 centred_at (circlesOf page)
      (documented_corners widthMm heightMm ++ documented_horizontal widthMm heightMm
       ++ documented_vertical widthMm heightMm) /\
    List.length (documented_horizontal widthMm heightMm)
      = (2 * Z.to_nat (documented_count widthMm))%nat /\
    List.length (documented_vertical widthMm heightMm)
      = (2 * Z.to_nat (documented_count heightMm))%nat.
Proof.
  intros Hfg Hbg.
  destruct (generatePDF_ok customFont text widthMm heightMm centerText fontSizeMm
              _ _ Hfg Hbg) as (fg & bg & Hpage).
  eexists. split; [exact Hpage|].
  rewrite circlesOf_banner. split; [|split].
  - apply Forall2_app; [|apply Forall2_app].
    + unfold cornerCircles, documented_corners, centred_at.
      repeat constructor; cbn [circleAt circle_x circle_y fst snd];
        try reflexivity; rewrite !mmToPoints_scale; to_Q; ring.
    + unfold horizontalCircles, documented_horizontal.
      change (mmToPoints widthMm - lit 2 * mmToPoints (lit 37.5))%num
        with (edgeDistance widthMm).
      rewrite intermediateCount_exact.
      apply Forall2_flat_map. intros i Hi. apply In_indices in Hi.
      pose proof (interior_offset_exact widthMm i Hi) as Hx.
      unfold centred_at.
      repeat constructor; cbn [circleAt circle_x circle_y fst snd];
        try exact Hx; try reflexivity; rewrite !mmToPoints_scale; to_Q; ring.
    + unfold verticalCircles, documented_vertical.
      change (mmToPoints heightMm - lit 2 * mmToPoints (lit 37.5))%num
        with (edgeDistance heightMm).
      rewrite intermediateCount_exact.
      apply Forall2_flat_map. intros i Hi. apply In_indices in Hi.
      pose proof (interior_offset_exact heightMm i Hi) as Hy.
      unfold centred_at.
      repeat constructor; cbn [circleAt circle_x circle_y fst snd];
        try exact Hy; try reflexivity; rewrite !mmToPoints_scale; to_Q; ring.
  - unfold documented_horizontal, indices.
    generalize (documented_count widthMm) as n; intros n.
    rewrite (flat_map_constant_length (c := 2%nat)) by reflexivity.
    rewrite length_map, length_seq. lia.
  - unfold documented_vertical, indices.
    generalize (documented_count heightMm) as n; intros n.
    rewrite (flat_map_constant_length (c := 2%nat)) by reflexivity.
    rewrite length_map, length_seq. lia.
Qed.

Lemma intermediate_distribution_exact_witness :
  exists page,
    generatePDF sampleFont "Banner PVC" 3000 700 true 25 "black" "yellow" = Ok page /\
    Forall2 centred_at (circlesOf page)
      (documented_corners 3000 700 ++ documented_horizontal 3000 700
       ++ documented_vertical 3000 700) /\
    List.length (documented_horizontal 3000 700)
      = (2 * Z.to_nat (documented_count 3000))%nat /\
    List.length (documented_vertical 3000 700)
      = (2 * Z.to_nat (documented_count 700))%nat.
Proof.
  apply (intermediate_distribution_exact sampleFont "Banner PVC" 3000 700 true 25
           "black" "yellow"); reflexivity.
Defined.

(** The documented example: 3000 by 700 mm. *)
Lemma documented_example :
  documented_count 3000 = 5%Z /\
  span 3000 / (inject_Z (documented_count 3000) + 1) == 487.5 /\
  documented_count 700 = 1%Z /\
  span 700 / (inject_Z (documented_count 700) + 1) == 312.5 /\
  documented_count 500 = 0%Z.
Proof. repeat split. Qed.

(** Every component of every tuple of the table lies in [0, 1]. *)
Theorem colour_table_range :
  Forall (fun entry =>
            let '(c, m, y, k) := snd entry in
            (0 <= c <= 1) /\ (0 <= m <= 1) /\ (0 <= y <= 1) /\ (0 <= k <= 1))
         (colors (num := Q)).
Proof. repeat constructor; cbn; lra. Qed.

(** *** Unit conversion *)

(** The round trip in exact arithmetic.  [mmToPoints] is the conversion
    [mm / 25.4 * 72], and converting to points and back with
    [points * 25.4 / 72] returns the millimetres with no error at all, for
    every value, positive or not. *)
Theorem conversion_roundtrip (x : Q) :
  mmToPoints x = x / 25.4 * 72 /\
  pointsToMm (mmToPoints x) == x.
Proof. split; [reflexivity | apply pointsToMm_mmToPoints]. Qed.

(** The conversion commutes with adding and scaling lengths, keeps their
    order, is one-to-one, and sends one inch, 25.4 mm, to 72 points. *)
Theorem mmToPoints_linear (a b : Q) :
  mmToPoints (a + b) == mmToPoints a + mmToPoints b /\
  mmToPoints (a - b) == mmToPoints a - mmToPoints b /\
  mmToPoints (a * b) == a * mmToPoints b /\
  (a < b <-> mmToPoints a < mmToPoints b) /\
  (mmToPoints a == mmToPoints b <-> a == b) /\
  mmToPoints 25.4 == 72 /\
  mmToPoints 0 == 0.
Proof.
  repeat split; try (rewrite !mmToPoints_scale; ring);
    try (rewrite !mmToPoints_scale; intros Hab; lra).
Qed.

(** *** The grid of circles along an edge *)

Lemma intermediateSpacing_divides dimension_mm :
  500 <= span dimension_mm ->
  (1 <= intermediateCount (edgeDistance dimension_mm))%Z /\
  0 < intermediateSpacing (edgeDistance dimension_mm) /\
  intermediateSpacing (edgeDistance dimension_mm)
  * (inject_Z (intermediateCount (edgeDistance dimension_mm)) + 1)
  == edgeDistance dimension_mm.
Proof.
  intros Hspan.
  pose proof (documented_count_positive _ Hspan) as Hpos.
  rewrite intermediateCount_exact, (intermediateSpacing_exact _ Hspan), edgeDistance_span.
  set (n := documented_count dimension_mm) in *.
  assert (Hn : 1 <= inject_Z n)
    by (change 1 with (inject_Z 1); now rewrite <- Zle_Qle).
  split; [exact Hpos|]. split.
  - rewrite mmToPoints_scale.
    assert (Hs : 0 < span dimension_mm / (inject_Z n + 1))
      by (apply Qlt_shift_div_l; lra).
    lra.
  - rewrite !mmToPoints_scale. field. lra.
Qed.

(** Along an edge with intermediate circles, the corner circle, the
    intermediate circles and the far corner circle are equally spaced: the
    loop index [i] gives the coordinate [position i], index 0 is the corner
    at 37.5 mm, index [count + 1] the far corner, one step is the spacing the
    program computes, and the grid is symmetric about the middle of the
    page. *)
Theorem edge_grid_regular (dimension_mm : Q) :
  500 <= span dimension_mm ->
  let count := intermediateCount (edgeDistance dimension_mm) in
  let spacing := intermediateSpacing (edgeDistance dimension_mm) in
  let position := fun i : Z => mmToPoints 37.5 + inject_Z i * spacing in
  (forall other fg,
     horizontalCircles (mmToPoints dimension_mm) other fg
     = flat_map (fun i => [ circleAt fg (position i) (other - mmToPoints 37.5);
                            circleAt fg (position i) (mmToPoints 37.5) ])
         (indices count)) /\
  (forall other fg,
     verticalCircles other (mmToPoints dimension_mm) fg
     = flat_map (fun i => [ circleAt fg (mmToPoints 37.5) (position i);
                            circleAt fg (other - mmToPoints 37.5) (position i) ])
         (indices count)) /\
  (1 <= count)%Z /\
  0 < spacing /\
  position 0%Z == mmToPoints 37.5 /\
  position (count + 1)%Z == mmToPoints dimension_mm - mmToPoints 37.5 /\
  (forall i, position (i + 1)%Z - position i == spacing) /\
  (forall i, position i + position (count + 1 - i)%Z == mmToPoints dimension_mm).
Proof.
  intros Hspan. cbv zeta.
  destruct (intermediateSpacing_divides _ Hspan) as (Hcount & Hpos & Hdiv).
  split; [reflexivity|]. split; [reflexivity|].
  split; [exact Hcount|]. split; [exact Hpos|].
  unfold edgeDistance in Hdiv at 3.
  set (s := intermediateSpacing (edgeDistance dimension_mm)) in *.
  set (n := intermediateCount (edgeDistance dimension_mm)) in *.
  repeat split.
  - change (inject_Z 0) with 0. ring.
  - rewrite inject_Z_plus. change (inject_Z 1) with 1. lra.
  - intros i. rewrite inject_Z_plus. change (inject_Z 1) with 1. ring.
  - intros i. unfold Z.sub. rewrite !inject_Z_plus, inject_Z_opp.
    change (inject_Z 1) with 1. lra.
Qed.

Lemma edge_grid_regular_witness :
  500 <= span 3000 /\
  (let count := intermediateCount (edgeDistance 3000) in
   let spacing := intermediateSpacing (edgeDistance 3000) in
   let position := fun i : Z => mmToPoints 37.5 + inject_Z i * spacing in
   (1 <= count)%Z /\
   0 < spacing /\
   position 0%Z == mmToPoints 37.5 /\
   position (count + 1)%Z == mmToPoints 3000 - mmToPoints 37.5 /\
   (forall i, position (i + 1)%Z - position i == spacing) /\
   (forall i, position i + position (count + 1 - i)%Z == mmToPoints 3000)).
Proof.
  split; [vm_compute; discriminate|].
  apply (edge_grid_regular 3000). vm_compute; discriminate.
Defined.

(** Neighbouring circles of an edge with intermediate circles are at least
    250 mm and less than 500 mm apart: the spacing never reaches the 500 mm
    that the count is computed from. *)
Theorem spacing_range (dimension_mm : Q) :
  500 <= span dimension_mm ->
  let spacing := pointsToMm (intermediateSpacing (edgeDistance dimension_mm)) in
  250 <= spacing /\ spacing < 500.
Proof.
  intros Hspan. cbv zeta.
  pose proof (documented_count_positive _ Hspan) as Hpos.
  rewrite (intermediateSpacing_exact _ Hspan), pointsToMm_mmToPoints.
  unfold documented_count in *.
  destruct (Qlt_le_dec (span dimension_mm) 500) as [Hlt|_]; [lra|].
  set (n := Qfloor (span dimension_mm / 500)) in *.
  assert (Hn : 1 <= inject_Z n)
    by (change 1 with (inject_Z 1); now rewrite <- Zle_Qle).
  assert (Hlow : inject_Z n <= span dimension_mm / 500) by apply Qfloor_le.
  assert (Hhigh : span dimension_mm / 500 < inject_Z n + 1).
  { pose proof (Qlt_floor (span dimension_mm / 500)) as Hf.
    fold n in Hf. rewrite inject_Z_plus in Hf. exact Hf. }
  assert (E : span dimension_mm == span dimension_mm / 500 * 500) by field.
  split.
  - apply Qle_shift_div_l; [lra|]. lra.
  - apply Qlt_shift_div_r; [lra|]. lra.
Qed.

Lemma spacing_range_witness :
  500 <= span 3000 /\
  (let spacing := pointsToMm (intermediateSpacing (edgeDistance 3000)) in
   250 <= spacing /\ spacing < 500).
Proof.
  split; [vm_compute; discriminate | apply (spacing_range 3000); vm_compute; discriminate].
Defined.

(** *** The circles and the panel *)

Lemma horizontalCircles_sides (width height : Q) fg c :
  In c (horizontalCircles width height fg) ->
  circle_y c = height - mmToPoints 37.5 \/ circle_y c = mmToPoints 37.5.
Proof.
  unfold horizontalCircles. rewrite in_flat_map.
  intros [i [_ [<-|[<-|[]]]]]; [left | right]; reflexivity.
Qed.

Lemma verticalCircles_sides (width height : Q) fg c :
  In c (verticalCircles width height fg) ->
  circle_x c = mmToPoints 37.5 \/ circle_x c = width - mmToPoints 37.5.
Proof.
  unfold verticalCircles. rewrite in_flat_map.
  intros [i [_ [<-|[<-|[]]]]]; [left | right]; reflexivity.
Qed.

Lemma banner_circles_inside (widthMm heightMm clearance : Q) fg bg :
  0 <= clearance <= mmToPoints 6.5 ->
  mmToPoints 68.5 + clearance <= mmToPoints widthMm ->
  mmToPoints 68.5 + clearance <= mmToPoints heightMm ->
  Forall (insideRectangle clearance
            (panelRectangle (mmToPoints widthMm) (mmToPoints heightMm) fg bg))
         (cornerCircles (mmToPoints widthMm) (mmToPoints heightMm) fg
          ++ horizontalCircles (mmToPoints widthMm) (mmToPoints heightMm) fg
          ++ verticalCircles (mmToPoints widthMm) (mmToPoints heightMm) fg).
Proof.
  intros Hc Hw Hh.
  set (W := mmToPoints widthMm) in *. set (H := mmToPoints heightMm) in *.
  assert (E1 : mmToPoints 37.5 == 37.5 * (360 # 127)) by apply mmToPoints_scale.
  assert (E2 : mmToPoints 6 == 6 * (360 # 127)) by apply mmToPoints_scale.
  assert (E3 : mmToPoints 25 == 25 * (360 # 127)) by apply mmToPoints_scale.
  assert (E4 : mmToPoints 68.5 == 68.5 * (360 # 127)) by apply mmToPoints_scale.
  assert (E5 : mmToPoints 6.5 == 6.5 * (360 # 127)) by apply mmToPoints_scale.
  apply Forall_app; split; [|apply Forall_app; split].
  - unfold cornerCircles, insideRectangle, panelRectangle, circleAt.
    repeat constructor; cbn [rect_x rect_y rect_width rect_height circle_x circle_y circle_size];
      cbn [lit add sub mul div QNumber]; lra.
  - apply Forall_forall. intros c Hin.
    destruct (horizontalCircles_interior _ _ _ _ Hin) as [Hsize Hx].
    apply horizontalCircles_sides in Hin.
    unfold insideRectangle, panelRectangle.
    cbn [rect_x rect_y rect_width rect_height]. rewrite Hsize.
    cbn [lit add sub mul div QNumber].
    destruct Hin as [-> | ->]; repeat split; lra.
  - apply Forall_forall. intros c Hin.
    destruct (verticalCircles_interior _ _ _ _ Hin) as [Hsize Hy].
    apply verticalCircles_sides in Hin.
    unfold insideRectangle, panelRectangle.
    cbn [rect_x rect_y rect_width rect_height]. rewrite Hsize.
    cbn [lit add sub mul div QNumber].
    destruct Hin as [-> | ->]; repeat split; lra.
Qed.

(** Every circle of the page lies inside the panel exactly when the banner
    is at least 68.5 mm wide and high; from 75 mm on, every circle keeps at
    least 6.5 mm between its rim and the border of the panel. *)
Theorem circles_inside_panel customFont text widthMm heightMm centerText fontSizeMm
    foregroundColor backgroundColor :
  inherited foregroundColor = false -> inherited backgroundColor = false ->
  exists page base panel,
    generatePDF customFont text widthMm heightMm centerText fontSizeMm
      foregroundColor backgroundColor = Ok page /\
    rectanglesOf page = [base; panel] /\
    (68.5 <= widthMm /\ 68.5 <= heightMm <->
     Forall (insideRectangle 0 panel) (circlesOf page)) /\
    (75 <= widthMm -> 75 <= heightMm ->
     Forall (insideRectangle (mmToPoints 6.5) panel) (circlesOf page)).
Proof.
  intros Hfg Hbg.
  destruct (generatePDF_ok customFont text widthMm heightMm centerText fontSizeMm
              _ _ Hfg Hbg) as (fg & bg & Hpage).
  eexists. do 2 eexists.
  split; [exact Hpage|].
  rewrite rectanglesOf_banner, circlesOf_banner. split; [reflexivity|].
  split; [split|].
  - intros [Hw Hh]. apply banner_circles_inside.
    + rewrite mmToPoints_scale. lra.
    + rewrite !mmToPoints_scale. lra.
    + rewrite !mmToPoints_scale. lra.
  - intros Hall. apply Forall_app in Hall. destruct Hall as [Hcorners _].
    unfold cornerCircles in Hcorners.
    apply Forall_inv in Hcorners. destruct Hcorners as (_ & Hx & _ & Hy).
    unfold panelRectangle, circleAt in Hx, Hy.
    cbn [rect_x rect_y rect_width rect_height circle_x circle_y circle_size] in Hx, Hy.
    rewrite !mmToPoints_scale in Hx, Hy.
    cbn [lit add sub mul div QNumber] in Hx, Hy. split; lra.
  - intros Hw Hh. apply banner_circles_inside.
    + rewrite mmToPoints_scale. lra.
    + rewrite !mmToPoints_scale. lra.
    + rewrite !mmToPoints_scale. lra.
Qed.

Lemma circles_inside_panel_witness :
  exists page base panel,
    generatePDF sampleFont "Banner PVC" 3000 700 true 25 "black" "yellow" = Ok page /\
    rectanglesOf page = [base; panel] /\
    (68.5 <= 3000 /\ 68.5 <= 700 <->
     Forall (insideRectangle 0 panel) (circlesOf page)) /\
    (75 <= 3000 -> 75 <= 700 ->
     Forall (insideRectangle (mmToPoints 6.5) panel) (circlesOf page)).
Proof.
  apply (circles_inside_panel sampleFont "Banner PVC" 3000 700 true 25 "black" "yellow");
    reflexivity.
Defined.

(** *** The text block and the page *)

Lemma textRuns_exists customFont lines centerText (width height fontSize : Q) fg i :
  (i < List.length lines)%nat ->
  exists run, nth_error (textRuns customFont lines centerText width height fontSize fg) i
              = Some run.
Proof.
  intros Hi.
  destruct (nth_error _ i) as [run|] eqn:Hrun; [eauto|].
  apply nth_error_None in Hrun. unfold textRuns in Hrun.
  rewrite mapiFrom_length in Hrun. lia.
Qed.

(** Centred mode, block by block: whatever the number of lines, the middle
    between the first and the last baseline is half a font size below the
    middle of the page; each line is centred on the vertical axis of the
    page, with equal space to its left and right, and starts left of the page
    exactly when it is wider than the page (no line is wrapped or clipped). *)
Theorem centered_block customFont text widthMm heightMm fontSizeMm
    foregroundColor backgroundColor :
  inherited foregroundColor = false -> inherited backgroundColor = false ->
  let pageWidth := mmToPoints widthMm in
  let pageHeight := mmToPoints heightMm in
  let fontSize := mmToPoints fontSizeMm in
  exists page first last,
    generatePDF customFont text widthMm heightMm true fontSizeMm
      foregroundColor backgroundColor = Ok page /\
    nth_error (textsOf page) 0 = Some first /\
    nth_error (textsOf page) (occurrences newline text) = Some last /\
    List.length (textsOf page) = S (occurrences newline text) /\
    (text_y (snd first) + text_y (snd last)) / 2 == pageHeight / 2 - fontSize / 2 /\
    Forall (fun run =>
              let lineWidth := widthOfTextAtSize customFont (fst run) fontSize in
              text_x (snd run) + lineWidth / 2 == pageWidth / 2 /\
              pageWidth - (text_x (snd run) + lineWidth) == text_x (snd run) /\
              (text_x (snd run) < 0 <-> pageWidth < lineWidth))
           (textsOf page).
Proof.
  intros Hfg Hbg. cbv zeta.
  destruct (generatePDF_ok customFont text widthMm heightMm true fontSizeMm
              _ _ Hfg Hbg) as (fg & bg & Hpage).
  pose proof (split_length newline text) as Hlen.
  destruct (textRuns_exists customFont (split newline text) true (mmToPoints widthMm)
              (mmToPoints heightMm) (mmToPoints fontSizeMm) fg 0 ltac:(lia))
    as [first Hfirst].
  destruct (textRuns_exists customFont (split newline text) true (mmToPoints widthMm)
              (mmToPoints heightMm) (mmToPoints fontSizeMm) fg (occurrences newline text)
              ltac:(lia)) as [last Hlast].
  eexists. exists first, last.
  split; [exact Hpage|]. rewrite textsOf_banner.
  split; [exact Hfirst|]. split; [exact Hlast|]. split.
  { unfold textRuns. now rewrite mapiFrom_length. }
  split.
  - apply textRuns_nth_error in Hfirst. destruct Hfirst as (_ & _ & ->).
    apply textRuns_nth_error in Hlast. destruct Hlast as (_ & _ & ->).
    rewrite Hlen. unfold startY, totalTextHeight. to_Q.
    rewrite Nat2Z.inj_succ. unfold Z.succ. rewrite inject_Z_plus.
    change (inject_Z 1) with 1. change (inject_Z (Z.of_nat 0)) with 0. field.
  - apply Forall_forall. intros run Hrun.
    apply In_nth_error in Hrun. destruct Hrun as [i Hi].
    apply textRuns_nth_error in Hi. destruct Hi as (_ & -> & _).
    set (w := widthOfTextAtSize customFont (fst run) (mmToPoints fontSizeMm)).
    set (W := mmToPoints widthMm).
    assert (E : (W - w) / 2 == (W - w) * (1 # 2)) by field.
    split; [field|]. split; [field|].
    split; intros Hx; [rewrite E in Hx | rewrite E]; lra.
Qed.

Lemma centered_block_witness :
  let text := String "A" (String newline (String newline "BCD")) in
  let pageWidth := mmToPoints 1000 in
  let pageHeight := mmToPoints 700 in
  let fontSize := mmToPoints 25 in
  exists page first last,
    generatePDF sampleFont text 1000 700 true 25 "black" "yellow" = Ok page /\
    nth_error (textsOf page) 0 = Some first /\
    nth_error (textsOf page) (occurrences newline text) = Some last /\
    List.length (textsOf page) = S (occurrences newline text) /\
    (text_y (snd first) + text_y (snd last)) / 2 == pageHeight / 2 - fontSize / 2 /\
    Forall (fun run =>
              let lineWidth := widthOfTextAtSize sampleFont (fst run) fontSize in
              text_x (snd run) + lineWidth / 2 == pageWidth / 2 /\
              pageWidth - (text_x (snd run) + lineWidth) == text_x (snd run) /\
              (text_x (snd run) < 0 <-> pageWidth < lineWidth))
           (textsOf page).
Proof.
  apply (centered_block sampleFont (String "A" (String newline (String newline "BCD")))
           1000 700 25 "black" "yellow"); reflexivity.
Defined.

(** Left-aligned mode against the panel: the baseline of the first line lies
    on the top side of the panel (the line's glyphs rise above it), and every
    line starts 5 mm right of the panel's left side, whatever the width of
    the banner. *)
Theorem left_aligned_anchor customFont text widthMm heightMm fontSizeMm
    foregroundColor backgroundColor :
  inherited foregroundColor = false -> inherited backgroundColor = false ->
  exists page base panel first rest,
    generatePDF customFont text widthMm heightMm false fontSizeMm
      foregroundColor backgroundColor = Ok page /\
    rectanglesOf page = [base; panel] /\
    textsOf page = first :: rest /\
    text_y (snd first) == rect_y panel + rect_height panel /\
    Forall (fun run => text_x (snd run) - rect_x panel == mmToPoints 5) (textsOf page).
Proof.
  intros Hfg Hbg.
  destruct (generatePDF_ok customFont text widthMm heightMm false fontSizeMm
              _ _ Hfg Hbg) as (fg & bg & Hpage).
  pose proof (split_length newline text) as Hlen.
  destruct (textRuns_exists customFont (split newline text) false (mmToPoints widthMm)
              (mmToPoints heightMm) (mmToPoints fontSizeMm) fg 0 ltac:(lia))
    as [first Hfirst].
  destruct (textRuns customFont (split newline text) false (mmToPoints widthMm)
              (mmToPoints heightMm) (mmToPoints fontSizeMm) fg) as [|first' rest] eqn:Eruns;
    [discriminate|].
  injection Hfirst as ->.
  eexists. do 2 eexists. exists first, rest.
  split; [exact Hpage|].
  rewrite rectanglesOf_banner, textsOf_banner, Eruns.
  split; [reflexivity|]. split; [reflexivity|].
  cbn [panelRectangle rect_x rect_y rect_height].
  split.
  - assert (H0 : nth_error (first :: rest) 0 = Some first) by reflexivity.
    rewrite <- Eruns in H0. apply textRuns_nth_error in H0.
    destruct H0 as (_ & _ & ->). unfold startY.
    cbn [lit add sub mul div QNumber]. rewrite !mmToPoints_scale.
    change (inject_Z (Z.of_nat 0)) with 0. ring.
  - apply Forall_forall. intros run Hrun. rewrite <- Eruns in Hrun.
    apply In_nth_error in Hrun. destruct Hrun as [i Hi].
    apply textRuns_nth_error in Hi. destruct Hi as (_ & -> & _).
    cbn [lit add sub mul div QNumber]. rewrite !mmToPoints_scale. ring.
Qed.

Lemma left_aligned_anchor_witness :
  exists page base panel first rest,
    generatePDF sampleFont "Banner PVC" 1000 700 false 25 "black" "yellow" = Ok page /\
    rectanglesOf page = [base; panel] /\
    textsOf page = first :: rest /\
    text_y (snd first) == rect_y panel + rect_height panel /\
    Forall (fun run => text_x (snd run) - rect_x panel == mmToPoints 5) (textsOf page).
Proof.
  apply (left_aligned_anchor sampleFont "Banner PVC" 1000 700 25 "black" "yellow");
    reflexivity.
Defined.

(** *** The colour table *)

(** No two names of the table stand for the same colour: two table names
    whose tuples agree component by component are the same name. *)
Theorem colour_table_injective name1 name2 :
  In name1 colorNames -> In name2 colorNames ->
  sameTuple (getColor name1) (getColor name2) -> name1 = name2.
Proof.
  unfold colorNames. intros H1 H2 Hsame. simpl in H1, H2.
  repeat (destruct H1 as [<-|H1];
    [ repeat (destruct H2 as [<-|H2];
        [ first [ reflexivity
                | exfalso; vm_compute in Hsame;
                  destruct Hsame as (Hc & Hm & Hy & Hk); discriminate ] | ]);
      contradiction | ]).
  contradiction.
Qed.

Lemma colour_table_injective_witness :
  In "navy"%string colorNames /\ In "navy"%string colorNames /\
  sameTuple (getColor "navy") (getColor "navy") /\ "navy"%string = "navy"%string.
Proof.
  assert (Hin : In "navy"%string colorNames) by (unfold colorNames; simpl; tauto).
  assert (Hsame : sameTuple (getColor "navy") (getColor "navy"))
    by (cbn; repeat split; reflexivity).
  split; [exact Hin|]. split; [exact Hin|]. split; [exact Hsame|].
  exact (colour_table_injective "navy" "navy" Hin Hin Hsame).
Defined.

End Exact.

(** ** Colour names *)

Section ColourNames.

Context {num : Type} `{Number num}.
Local Open Scope string_scope.
Local Open Scope list_scope.

(** C4, at the name ["constructor"].  The name is none of the 18 names of
    the table, yet [getColor] does not return the tuple of ["black"]: the
    lookup finds the member [constructor] that the table inherits from
    [Object.prototype], a function, which is truthy, so the fallback of line
    45 is not taken; the destructuring of line 79 then throws. *)
Theorem getColor_inherited_name :
  ~ In "constructor" colorNames /\
  getColor "black" = JSTuple (lit 0) (lit 0) (lit 0) (lit 1) /\
  getColor "constructor" = JSInherited "constructor" /\
  getColor "constructor" <> getColor "black" /\
  forall customFont text widthMm heightMm centerText fontSizeMm backgroundColor,
    exists message,
      generatePDF customFont text widthMm heightMm centerText fontSizeMm
        "constructor" backgroundColor = Throw (TypeError message).
Proof.
  split.
  { unfold colorNames; simpl. intros Hin.
    repeat (destruct Hin as [Hin|Hin]; [discriminate|]). contradiction. }
  split; [reflexivity|]. split; [reflexivity|]. split; [discriminate|].
  intros. apply generatePDF_throws. now left.
Qed.

(** The table has exactly the 18 documented names, each once. *)
Theorem colour_table_names :
  map fst colors = colorNames /\ List.length colors = 18%nat /\ NoDup colorNames.
Proof.
  split; [reflexivity|]. split; [reflexivity|].
  unfold colorNames.
  repeat (constructor; [simpl; intros Hin;
    repeat (destruct Hin as [Hin|Hin]; [discriminate|]); contradiction|]).
  constructor.
Qed.

(** A name that is neither in the table nor a member of [Object.prototype]
    resolves to the tuple of ["black"], and no error is raised: [getColor]
    is a total function. *)
Theorem getColor_unknown_name colorName :
  ~ In colorName colorNames -> inherited colorName = false ->
  getColor colorName = getColor "black" /\
  getColor colorName = JSTuple (lit 0) (lit 0) (lit 0) (lit 1).
Proof.
  intros Hnot Hin. rewrite <- colors_keys in Hnot. apply ownProperty_None in Hnot.
  rewrite (getColor_fallback _ Hnot Hin). split; reflexivity.
Qed.

(** C10.  The base layer does not depend on the colour names: whenever a run
    returns a page, its first drawing is the rectangle at (0,0) of the page's
    width and height, filled with the constant white [cmyk 0 0 0 0] and
    without border, so two runs that differ only in the colour names draw the
    same base rectangle.  Of the two rectangles of the page only the second,
    the inset panel, takes the configured colours: it is filled with the tuple
    of the background name and bordered with that of the foreground name (the
    circles and the text are drawn in the foreground colour).  A run returns
    a page whenever neither name is a member of [Object.prototype]. *)
Theorem base_layer_noninterference customFont text widthMm heightMm centerText fontSizeMm :
  let run := generatePDF customFont text widthMm heightMm centerText fontSizeMm in
  let base :=
    DrawRectangle
      {| rect_x := lit 0; rect_y := lit 0;
         rect_width := mmToPoints widthMm; rect_height := mmToPoints heightMm;
         rect_color := cmyk (lit 0) (lit 0) (lit 0) (lit 0);
         rect_borderColor := None; rect_borderWidth := None |} in
  (forall foregroundColor backgroundColor page,
     run foregroundColor backgroundColor = Ok page ->
     nth_error (drawings page) 0 = Some base /\
     exists fgC fgM fgY fgK bgC bgM bgY bgK panel,
       getColor foregroundColor = JSTuple fgC fgM fgY fgK /\
       getColor backgroundColor = JSTuple bgC bgM bgY bgK /\
       nth_error (drawings page) 1 = Some (DrawRectangle panel) /\
       rect_color panel = cmyk bgC bgM bgY bgK /\
       rect_borderColor panel = Some (cmyk fgC fgM fgY fgK) /\
       rectanglesOf page = [baseRectangle (mmToPoints widthMm) (mmToPoints heightMm); panel] /\
       Forall (fun c => circle_color c = cmyk fgC fgM fgY fgK) (circlesOf page) /\
       Forall (fun run => text_color (snd run) = cmyk fgC fgM fgY fgK) (textsOf page)) /\
  (forall foregroundColor backgroundColor foregroundColor' backgroundColor' page page',
     run foregroundColor backgroundColor = Ok page ->
     run foregroundColor' backgroundColor' = Ok page' ->
     nth_error (drawings page) 0 = nth_error (drawings page') 0) /\
  (forall foregroundColor backgroundColor,
     inherited foregroundColor = false -> inherited backgroundColor = false ->
     exists page, run foregroundColor backgroundColor = Ok page).
Proof.
  cbv zeta.
  assert (Hbase : forall foregroundColor backgroundColor page,
    generatePDF customFont text widthMm heightMm centerText fontSizeMm
      foregroundColor backgroundColor = Ok page ->
    nth_error (drawings page) 0
    = Some (DrawRectangle (baseRectangle (mmToPoints widthMm) (mmToPoints heightMm))) /\
    exists fgC fgM fgY fgK bgC bgM bgY bgK panel,
      getColor foregroundColor = JSTuple fgC fgM fgY fgK /\
      getColor backgroundColor = JSTuple bgC bgM bgY bgK /\
      nth_error (drawings page) 1 = Some (DrawRectangle panel) /\
      rect_color panel = cmyk bgC bgM bgY bgK /\
      rect_borderColor panel = Some (cmyk fgC fgM fgY fgK) /\
      rectanglesOf page = [baseRectangle (mmToPoints widthMm) (mmToPoints heightMm); panel] /\
      Forall (fun c => circle_color c = cmyk fgC fgM fgY fgK) (circlesOf page) /\
      Forall (fun run => text_color (snd run) = cmyk fgC fgM fgY fgK) (textsOf page)).
  { intros fg bg page Hrun.
    destruct (generatePDF_Ok_inv _ _ _ _ _ _ _ _ _ Hrun) as [Hfg Hbg].
    destruct (getColor_tuple _ Hfg) as (fgC & fgM & fgY & fgK & Efg).
    destruct (getColor_tuple _ Hbg) as (bgC & bgM & bgY & bgK & Ebg).
    rewrite (generatePDF_drawings _ _ _ _ _ _ _ _ _ _ _ _ _ _ _ _ Efg Ebg) in Hrun.
    injection Hrun as <-. split; [reflexivity|].
    exists fgC, fgM, fgY, fgK, bgC, bgM, bgY, bgK. eexists.
    rewrite rectanglesOf_banner, circlesOf_banner, textsOf_banner.
    split; [exact Efg|]. split; [exact Ebg|]. split; [reflexivity|].
    split; [reflexivity|]. split; [reflexivity|]. split; [reflexivity|]. split.
    - eapply Forall_impl; [|apply banner_circles_uniform]. now intros c [_ Hc].
    - apply banner_texts_uniform. }
  split; [exact Hbase|]. split.
  - intros fg bg fg' bg' page page' Hrun Hrun'.
    destruct (Hbase _ _ _ Hrun) as [-> _]. destruct (Hbase _ _ _ Hrun') as [-> _].
    reflexivity.
  - intros fg bg Hfg Hbg.
    destruct (generatePDF_ok customFont text widthMm heightMm centerText fontSizeMm
                _ _ Hfg Hbg) as (fgc & bgc & Hpage).
    eexists. exact Hpage.
Qed.

End ColourNames.

Lemma getColor_unknown_name_witness :
  getColor (num := Q) "turquoise" = getColor "black" /\
  getColor (num := Q) "turquoise" = JSTuple (lit 0) (lit 0) (lit 0) (lit 1).
Proof.
  apply (getColor_unknown_name (num := Q) "turquoise"); [|reflexivity].
  unfold colorNames; simpl. intros Hin.
  repeat (destruct Hin as [Hin|Hin]; [discriminate|]). contradiction.
Defined.

Lemma base_layer_noninterference_witness :
  exists page page',
    generatePDF sampleFont "Banner PVC" 1000%Q 700%Q true 25%Q "black" "yellow" = Ok page /\
    generatePDF sampleFont "Banner PVC" 1000%Q 700%Q true 25%Q "navy" "turquoise" = Ok page' /\
    nth_error (drawings page) 0 = nth_error (drawings page') 0.
Proof.
  pose proof (base_layer_noninterference (num := Q) sampleFont "Banner PVC"
                1000%Q 700%Q true 25%Q) as (_ & Hsame & Hruns).
  destruct (Hruns "black"%string "yellow"%string eq_refl eq_refl) as [page Hpage].
  destruct (Hruns "navy"%string "turquoise"%string eq_refl eq_refl) as [page' Hpage'].
  exists page, page'. split; [exact Hpage|]. split; [exact Hpage'|].
  exact (Hsame _ _ _ _ _ _ Hpage Hpage').
Defined.

(** ** The layout in any arithmetic *)

Section AnyArithmetic.

Context {num : Type} `{Number num}.
Local Open Scope num_scope.
Local Open Scope list_scope.

Lemma flat_map_pair_length {A B} (f g : A -> B) (l : list A) :
  List.length (flat_map (fun a => [f a; g a]) l) = (2 * List.length l)%nat.
Proof. induction l as [|a l IH]; simpl; [reflexivity | rewrite IH; lia]. Qed.

Lemma indices_length last : List.length (indices last) = Z.to_nat last.
Proof. unfold indices. now rewrite length_map, length_seq. Qed.

(** Whatever the arithmetic (binary64 included), the circles of the page are
    the four corners, computed as the program writes them, followed by one
    pair per loop index on the horizontal and then on the vertical edges;
    all have the radius [mmToPoints 6] and the colour of the foreground name:
    the tuple [getColor] returns for it. *)
Theorem circles_in_any_arithmetic (customFont : PDFFont num) text (widthMm heightMm : num)
    centerText (fontSizeMm : num) foregroundColor backgroundColor :
  inherited foregroundColor = false -> inherited backgroundColor = false ->
  let width := mmToPoints widthMm in
  let height := mmToPoints heightMm in
  let circleOffset := mmToPoints (lit 37.5) in
  exists page c m y k,
    getColor foregroundColor = JSTuple c m y k /\
    let fg := cmyk c m y k in
    generatePDF customFont text widthMm heightMm centerText fontSizeMm
      foregroundColor backgroundColor = Ok page /\
    circlesOf page
    = [ circleAt fg circleOffset circleOffset;
        circleAt fg (width - circleOffset) circleOffset;
        circleAt fg circleOffset (height - circleOffset);
        circleAt fg (width - circleOffset) (height - circleOffset) ]
      ++ horizontalCircles width height fg ++ verticalCircles width height fg /\
    Forall (fun circle => circle_size circle = mmToPoints (lit 6) /\ circle_color circle = fg)
           (circlesOf page) /\
    List.length (horizontalCircles width height fg)
    = (2 * Z.to_nat (intermediateCount (width - lit 2 * circleOffset)%num))%nat /\
    List.length (verticalCircles width height fg)
    = (2 * Z.to_nat (intermediateCount (height - lit 2 * circleOffset)%num))%nat.
Proof.
  intros Hfg Hbg. cbv zeta.
  destruct (getColor_tuple _ Hfg) as (fgC & fgM & fgY & fgK & Efg).
  destruct (getColor_tuple _ Hbg) as (bgC & bgM & bgY & bgK & Ebg).
  eexists. exists fgC, fgM, fgY, fgK. split; [exact Efg|].
  split; [exact (generatePDF_drawings _ _ _ _ _ _ _ _ _ _ _ _ _ _ _ _ Efg Ebg)|].
  rewrite circlesOf_banner. split; [reflexivity|]. split; [|split].
  - apply banner_circles_uniform.
  - unfold horizontalCircles. now rewrite flat_map_pair_length, indices_length.
  - unfold verticalCircles. now rewrite flat_map_pair_length, indices_length.
Qed.

(** Whatever the arithmetic, the text runs of the page are the lines of the
    split, in order, each at the x and y the program computes. *)
Theorem text_runs_in_any_arithmetic (customFont : PDFFont num) text (widthMm heightMm : num)
    (centerText : bool) (fontSizeMm : num) foregroundColor backgroundColor :
  inherited foregroundColor = false -> inherited backgroundColor = false ->
  let width := mmToPoints widthMm in
  let height := mmToPoints heightMm in
  let fontSize := mmToPoints fontSizeMm in
  let lineSpacing := fontSize * lit 1.3 in
  let lines := split newline text in
  let totalTextHeight := (ofNat (List.length lines) - lit 1) * lineSpacing + fontSize in
  let startY :=
    if centerText
    then height / lit 2 + totalTextHeight / lit 2 - fontSize * lit 0.35 - lineSpacing * lit 0.5
    else height - mmToPoints (lit 25) in
  exists page fg,
    generatePDF customFont text widthMm heightMm centerText fontSizeMm
      foregroundColor backgroundColor = Ok page /\
    List.length (textsOf page) = S (occurrences newline text) /\
    textsOf page
    = mapiFrom 0 (fun line index =>
        (line,
         {| text_x :=
              if centerText
              then (width - widthOfTextAtSize customFont line fontSize) / lit 2
              else mmToPoints (lit 25 + lit 5);
            text_y := startY - ofNat index * lineSpacing;
            text_size := fontSize;
            text_color := fg |})) lines.
Proof.
  intros Hfg Hbg. cbv zeta.
  destruct (generatePDF_ok customFont text widthMm heightMm centerText fontSizeMm
              _ _ Hfg Hbg) as (fg & bg & Hpage).
  eexists. exists fg. split; [exact Hpage|].
  rewrite textsOf_banner. split; [|reflexivity].
  unfold textRuns. rewrite mapiFrom_length. apply split_length.
Qed.

End AnyArithmetic.

(** ** The run as a whole, in any arithmetic *)

Section WholeRun.

Context {num : Type} `{Number num}.
Local Open Scope num_scope.
Local Open Scope list_scope.

Lemma textRuns_fst customFont lines centerText (width height fontSize : num) fg :
  map fst (textRuns customFont lines centerText width height fontSize fg) = lines.
Proof. unfold textRuns. now apply Exact.map_fst_mapiFrom. Qed.

(** The painting order.  The drawings of the page are its two rectangles,
    then all its circles, then its text runs, so the text is painted over the
    circles and the circles over the panel; the page has the converted size,
    and the number of drawings is 2 + 4 + 2 per intermediate index of each
    edge direction + one per line. *)
Theorem drawing_order (customFont : PDFFont num) text (widthMm heightMm : num)
    (centerText : bool) (fontSizeMm : num) foregroundColor backgroundColor :
  inherited foregroundColor = false -> inherited backgroundColor = false ->
  let circleOffset := mmToPoints (lit 37.5) in
  let horizontalCount :=
    Z.to_nat (intermediateCount (mmToPoints widthMm - lit 2 * circleOffset)%num) in
  let verticalCount :=
    Z.to_nat (intermediateCount (mmToPoints heightMm - lit 2 * circleOffset)%num) in
  exists page,
    generatePDF customFont text widthMm heightMm centerText fontSizeMm
      foregroundColor backgroundColor = Ok page /\
    getSize page = (mmToPoints widthMm, mmToPoints heightMm) /\
    drawings page
    = map DrawRectangle (rectanglesOf page) ++ map DrawCircle (circlesOf page)
      ++ map (fun run => DrawText (fst run) (snd run)) (textsOf page) /\
    List.length (rectanglesOf page) = 2%nat /\
    List.length (circlesOf page) = (4 + 2 * horizontalCount + 2 * verticalCount)%nat /\
    List.length (textsOf page) = S (occurrences newline text) /\
    List.length (drawings page)
    = (2 + 4 + 2 * horizontalCount + 2 * verticalCount + S (occurrences newline text))%nat.
Proof.
  intros Hfg Hbg. cbv zeta.
  destruct (generatePDF_ok customFont text widthMm heightMm centerText fontSizeMm
              _ _ Hfg Hbg) as (fg & bg & Hpage).
  eexists. split; [exact Hpage|]. split; [reflexivity|].
  rewrite rectanglesOf_banner, circlesOf_banner, textsOf_banner.
  assert (Hh : List.length (horizontalCircles (mmToPoints widthMm) (mmToPoints heightMm) fg)
               = (2 * Z.to_nat (intermediateCount
                                  (mmToPoints widthMm - lit 2 * mmToPoints (lit 37.5))%num))%nat).
  { unfold horizontalCircles. now rewrite flat_map_pair_length, indices_length. }
  assert (Hv : List.length (verticalCircles (mmToPoints widthMm) (mmToPoints heightMm) fg)
               = (2 * Z.to_nat (intermediateCount
                                  (mmToPoints heightMm - lit 2 * mmToPoints (lit 37.5))%num))%nat).
  { unfold verticalCircles. now rewrite flat_map_pair_length, indices_length. }
  assert (Ht : List.length (textRuns customFont (split newline text) centerText
                              (mmToPoints widthMm) (mmToPoints heightMm)
                              (mmToPoints fontSizeMm) fg)
               = S (occurrences newline text)).
  { unfold textRuns. now rewrite mapiFrom_length, split_length. }
  split; [|split; [reflexivity|]]; [|split; [|split; [exact Ht|]]].
  - cbn [drawings]. unfold bannerDrawings. rewrite !map_app, <- !app_assoc. reflexivity.
  - rewrite !length_app, Hh, Hv. reflexivity.
  - cbn [drawings]. unfold bannerDrawings.
    rewrite !length_app, !length_map, Hh, Hv, Ht. cbn [List.length cornerCircles]. lia.
Qed.

(** The text does not reach the frame: two runs on the same dimensions and
    colour names, with any two texts, fonts, font sizes and alignments, give
    pages of the same size with the same rectangles and the same circles. *)
Theorem geometry_independent_of_text (customFont customFont' : PDFFont num) text text'
    (widthMm heightMm : num) (centerText centerText' : bool) (fontSizeMm fontSizeMm' : num)
    foregroundColor backgroundColor :
  inherited foregroundColor = false -> inherited backgroundColor = false ->
  exists page page',
    generatePDF customFont text widthMm heightMm centerText fontSizeMm
      foregroundColor backgroundColor = Ok page /\
    generatePDF customFont' text' widthMm heightMm centerText' fontSizeMm'
      foregroundColor backgroundColor = Ok page' /\
    getSize page = getSize page' /\
    rectanglesOf page = rectanglesOf page' /\
    circlesOf page = circlesOf page'.
Proof.
  intros Hfg Hbg.
  destruct (getColor_tuple _ Hfg) as (fgC & fgM & fgY & fgK & Efg).
  destruct (getColor_tuple _ Hbg) as (bgC & bgM & bgY & bgK & Ebg).
  do 2 eexists.
  split; [exact (generatePDF_drawings _ _ _ _ _ _ _ _ _ _ _ _ _ _ _ _ Efg Ebg)|].
  split; [exact (generatePDF_drawings _ _ _ _ _ _ _ _ _ _ _ _ _ _ _ _ Efg Ebg)|].
  split; [reflexivity|].
  now rewrite !rectanglesOf_banner, !circlesOf_banner.
Qed.

(** The background colour reaches one drawing only: two runs that differ in
    the background name alone give the same circles, the same text runs and,
    position by position, the same drawings except the second one, the panel,
    and the two panels differ in their fill colour at most. *)
Theorem background_affects_panel_only (customFont : PDFFont num) text
    (widthMm heightMm : num) (centerText : bool) (fontSizeMm : num)
    foregroundColor backgroundColor backgroundColor' :
  inherited foregroundColor = false ->
  inherited backgroundColor = false -> inherited backgroundColor' = false ->
  exists page page' panel panel',
    generatePDF customFont text widthMm heightMm centerText fontSizeMm
      foregroundColor backgroundColor = Ok page /\
    generatePDF customFont text widthMm heightMm centerText fontSizeMm
      foregroundColor backgroundColor' = Ok page' /\
    circlesOf page = circlesOf page' /\
    textsOf page = textsOf page' /\
    (forall i, i <> 1%nat -> nth_error (drawings page) i = nth_error (drawings page') i) /\
    nth_error (drawings page) 1 = Some (DrawRectangle panel) /\
    nth_error (drawings page') 1 = Some (DrawRectangle panel') /\
    rect_x panel = rect_x panel' /\ rect_y panel = rect_y panel' /\
    rect_width panel = rect_width panel' /\ rect_height panel = rect_height panel' /\
    rect_borderColor panel = rect_borderColor panel' /\
    rect_borderWidth panel = rect_borderWidth panel'.
Proof.
  intros Hfg Hbg Hbg'.
  destruct (getColor_tuple _ Hfg) as (fgC & fgM & fgY & fgK & Efg).
  destruct (getColor_tuple _ Hbg) as (bgC & bgM & bgY & bgK & Ebg).
  destruct (getColor_tuple _ Hbg') as (bgC' & bgM' & bgY' & bgK' & Ebg').
  do 4 eexists.
  split; [exact (generatePDF_drawings _ _ _ _ _ _ _ _ _ _ _ _ _ _ _ _ Efg Ebg)|].
  split; [exact (generatePDF_drawings _ _ _ _ _ _ _ _ _ _ _ _ _ _ _ _ Efg Ebg')|].
  rewrite !circlesOf_banner, !textsOf_banner.
  split; [reflexivity|]. split; [reflexivity|]. split.
  - intros [|[|i]] Hi; [reflexivity | congruence | reflexivity].
  - cbn [drawings bannerDrawings app nth_error]. repeat split.
Qed.

(** No text is lost or added: the text runs of the page joined by line
    breaks are the text that was given, and no run contains a line break. *)
Theorem lines_rejoin (customFont : PDFFont num) text (widthMm heightMm : num)
    (centerText : bool) (fontSizeMm : num) foregroundColor backgroundColor :
  inherited foregroundColor = false -> inherited backgroundColor = false ->
  exists page,
    generatePDF customFont text widthMm heightMm centerText fontSizeMm
      foregroundColor backgroundColor = Ok page /\
    join newline (map fst (textsOf page)) = text /\
    Forall (fun run => occurrences newline (fst run) = 0%nat) (textsOf page).
Proof.
  intros Hfg Hbg.
  destruct (generatePDF_ok customFont text widthMm heightMm centerText fontSizeMm
              _ _ Hfg Hbg) as (fg & bg & Hpage).
  eexists. split; [exact Hpage|].
  rewrite textsOf_banner. split.
  - rewrite textRuns_fst. apply join_split.
  - rewrite <- (Forall_map fst (fun line => occurrences newline line = 0%nat)).
    rewrite textRuns_fst. apply split_no_separator.
Qed.

(** The colour names that throw.  The destructuring of lines 79 and 80
    throws exactly for the eleven member names the table inherits from
    [Object.prototype], and gives a tuple for every other string; so a run
    with one of these names as foreground or as background throws, and a run
    that returns a page has neither.  (What else can make a run fail, inside
    pdf-lib or when the file is written, is outside the embedding, and no
    statement is made about it.) *)
Theorem inherited_names_throw (colorName : string) :
  ((exists message, destructure (getColor colorName) = Throw (TypeError message)) <->
   In colorName ObjectPrototype) /\
  ((exists c m y k, destructure (getColor colorName) = Ok (c, m, y, k)) <->
   ~ In colorName ObjectPrototype) /\
  (forall (customFont : PDFFont num) text (widthMm heightMm : num) (centerText : bool)
          (fontSizeMm : num) other page,
     generatePDF customFont text widthMm heightMm centerText fontSizeMm colorName other
       = Ok page \/
     generatePDF customFont text widthMm heightMm centerText fontSizeMm other colorName
       = Ok page ->
     ~ In colorName ObjectPrototype) /\
  (In colorName ObjectPrototype ->
   forall (customFont : PDFFont num) text (widthMm heightMm : num) (centerText : bool)
          (fontSizeMm : num) other,
     (exists message,
        generatePDF customFont text widthMm heightMm centerText fontSizeMm colorName other
        = Throw (TypeError message)) /\
     (exists message,
        generatePDF customFont text widthMm heightMm centerText fontSizeMm other colorName
        = Throw (TypeError message))).
Proof.
  assert (Hin : forall key, inherited key = true <-> In key ObjectPrototype).
  { intros key. unfold inherited. rewrite existsb_exists. split.
    - intros (x & Hx & Heq). apply String.eqb_eq in Heq. now subst.
    - intros Hk. exists key. split; [exact Hk | apply String.eqb_refl]. }
  assert (Hnot : forall key, inherited key = false <-> ~ In key ObjectPrototype).
  { intros key. rewrite <- Hin. now destruct (inherited key). }
  rewrite <- (Hin colorName).
  destruct (inherited colorName) eqn:Hname.
  - rewrite (getColor_inherited _ Hname). cbn [destructure].
    split; [split; [reflexivity | intros _; eauto]|].
    split; [split; [intros (c & m & y & k & Hok); discriminate | intros Hno; now elim Hno]|].
    split.
    + intros customFont text widthMm heightMm centerText fontSizeMm other page [Hrun|Hrun];
        apply generatePDF_Ok_inv in Hrun; destruct Hrun as [Hfg Hbg]; congruence.
    + intros _ customFont text widthMm heightMm centerText fontSizeMm other.
      split; apply generatePDF_throws; [now left | now right].
  - destruct (getColor_tuple _ Hname) as (c & m & y & k & Ecolor).
    rewrite Ecolor. cbn [destructure].
    split; [split; [intros [message Hthrow]; discriminate | discriminate]|].
    split; [split; [intros _; discriminate | intros _; eauto 6]|].
    split; [intros; now apply Hnot | discriminate].
Qed.

End WholeRun.

Lemma drawing_order_witness :
  exists page,
    generatePDF sampleFont "Banner PVC" 3000%Q 700%Q true 25%Q "black" "yellow" = Ok page /\
    getSize page = (mmToPoints 3000%Q, mmToPoints 700%Q) /\
    drawings page
    = map DrawRectangle (rectanglesOf page) ++ map DrawCircle (circlesOf page)
      ++ map (fun run => DrawText (fst run) (snd run)) (textsOf page) /\
    List.length (rectanglesOf page) = 2%nat /\
    List.length (circlesOf page) = (4 + 2 * 5 + 2 * 1)%nat /\
    List.length (textsOf page) = 1%nat /\
    List.length (drawings page) = (2 + 4 + 2 * 5 + 2 * 1 + 1)%nat.
Proof.
  exact (drawing_order (num := Q) sampleFont "Banner PVC" 3000%Q 700%Q true 25%Q
           "black" "yellow" eq_refl eq_refl).
Defined.

Lemma geometry_independent_of_text_witness :
  exists page page',
    generatePDF sampleFont "Banner PVC" 1000%Q 700%Q true 25%Q "black" "yellow" = Ok page /\
    generatePDF sampleFont (String "A" (String newline "BCD")) 1000%Q 700%Q false 8%Q
      "black" "yellow" = Ok page' /\
    getSize page = getSize page' /\
    rectanglesOf page = rectanglesOf page' /\
    circlesOf page = circlesOf page'.
Proof.
  apply (geometry_independent_of_text (num := Q) sampleFont sampleFont "Banner PVC"
           (String "A" (String newline "BCD")) 1000%Q 700%Q true false 25%Q 8%Q
           "black" "yellow"); reflexivity.
Defined.

Lemma background_affects_panel_only_witness :
  exists page page' panel panel',
    generatePDF sampleFont "Banner PVC" 1000%Q 700%Q true 25%Q "black" "yellow" = Ok page /\
    generatePDF sampleFont "Banner PVC" 1000%Q 700%Q true 25%Q "black" "gold" = Ok page' /\
    circlesOf page = circlesOf page' /\
    textsOf page = textsOf page' /\
    (forall i, i <> 1%nat -> nth_error (drawings page) i = nth_error (drawings page') i) /\
    nth_error (drawings page) 1 = Some (DrawRectangle panel) /\
    nth_error (drawings page') 1 = Some (DrawRectangle panel') /\
    rect_x panel = rect_x panel' /\ rect_y panel = rect_y panel' /\
    rect_width panel = rect_width panel' /\ rect_height panel = rect_height panel' /\
    rect_borderColor panel = rect_borderColor panel' /\
    rect_borderWidth panel = rect_borderWidth panel'.
Proof.
  apply (background_affects_panel_only (num := Q) sampleFont "Banner PVC" 1000%Q 700%Q
           true 25%Q "black" "yellow" "gold"); reflexivity.
Defined.

Lemma lines_rejoin_witness :
  exists page,
    generatePDF sampleFont (String "A" (String newline "BCD")) 1000%Q 700%Q true 25%Q
      "black" "yellow" = Ok page /\
    join newline (map fst (textsOf page)) = String "A" (String newline "BCD") /\
    Forall (fun run => occurrences newline (fst run) = 0%nat) (textsOf page).
Proof.
  apply (lines_rejoin (num := Q) sampleFont (String "A" (String newline "BCD"))
           1000%Q 700%Q true 25%Q "black" "yellow"); reflexivity.
Defined.

(** ** Binary64 arithmetic: the run of the program *)

Module Double.

Import Binary64.
Local Open Scope num_scope.

(** The literals of the program, as Rocq reads the same decimals. *)
Lemma literals :
  (lit 25.4 : float) = 25.4%float /\ (lit 37.5 : float) = 37.5%float /\
  (lit 0.35 : float) = 0.35%float /\ (lit 1.3 : float) = 1.3%float /\
  (lit 0.5 : float) = 0.5%float /\ (lit 72 : float) = 72%float /\
  (lit 500 : float) = 500%float.
Proof. repeat split; reflexivity. Qed.

(** [Math.floor] on sample values. *)
Lemma mathFloor_examples :
  mathFloor 5.85%float = 5%Z /\ mathFloor 2%float = 2%Z /\
  mathFloor 0.9999999999999999%float = 0%Z /\ mathFloor (-0.5)%float = (-1)%Z /\
  mathFloor 1e15%float = (10 ^ 15)%Z.
Proof. repeat split; vm_compute; reflexivity. Qed.

(** The distance between the corner circles of a 575 mm edge is 500 mm; in
    points the program computes it one unit in the last place below the
    converted 500 mm, so the test of line 155 (or 188) fails. *)
Lemma boundary_distance :
  mmToPoints (lit 575) - lit 2 * mmToPoints (lit 37.5) = 1417.3228346456692%float /\
  mmToPoints (lit 500) = 1417.3228346456694%float /\
  (mmToPoints (lit 575) - lit 2 * mmToPoints (lit 37.5) >=? mmToPoints (lit 500)) = false /\
  intermediateCount (mmToPoints (lit 575) - lit 2 * mmToPoints (lit 37.5)) = 0%Z.
Proof. repeat split; vm_compute; reflexivity. Qed.

(** C1, at the width 575 mm.  The span is 575 - 75 = 500 mm, so the
    documented rule places floor (500 / 500) = 1 intermediate circle on each
    horizontal edge, and the program run in exact arithmetic draws them; run
    in binary64 arithmetic, as it is, it draws none: the circles of the page
    are the four corners and the two vertical intermediates of the 700 mm
    edges. *)
Theorem boundary_width_loses_circles customFont text centerText fontSizeMm :
  let width : float := mmToPoints (lit 575) in
  let height : float := mmToPoints (lit 700) in
  documented_count 575 = 1%Z /\
  (exists page,
     generatePDF sampleFont "Banner PVC" 575%Q 700%Q true 25%Q "black" "yellow"
       = Ok page /\
     List.length (circlesOf page) = 8%nat) /\
  exists page fg,
    generatePDF customFont text (lit 575) (lit 700) centerText fontSizeMm "black" "yellow"
      = Ok page /\
    horizontalCircles width height fg = [] /\
    circlesOf page = cornerCircles width height fg ++ verticalCircles width height fg /\
    List.length (circlesOf page) = 6%nat.
Proof.
  cbv zeta. split; [reflexivity|]. split.
  { eexists. split; [vm_compute; reflexivity | reflexivity]. }
  destruct (generatePDF_ok customFont text (lit 575) (lit 700) centerText fontSizeMm
              "black" "yellow" eq_refl eq_refl) as (fg & bg & Hpage).
  eexists. exists fg. split; [exact Hpage|].
  rewrite circlesOf_banner.
  assert (Hnone : horizontalCircles (mmToPoints (lit 575)) (mmToPoints (lit 700)) fg = []).
  { unfold horizontalCircles.
    destruct boundary_distance as (_ & _ & _ & ->). reflexivity. }
  rewrite Hnone. split; [reflexivity|]. split; [reflexivity|].
  vm_compute. reflexivity.
Qed.

(** Other widths whose span is a multiple of 500 mm lose one circle per edge
    the same way: 2075 mm (span 2000) gets three instead of four, 3075 mm
    (span 3000) five instead of six; 1075 mm (span 1000) gets its two. *)
Lemma boundary_counts :
  intermediateCount (mmToPoints (lit 2075) - lit 2 * mmToPoints (lit 37.5)) = 3%Z /\
  documented_count 2075 = 4%Z /\
  intermediateCount (mmToPoints (lit 3075) - lit 2 * mmToPoints (lit 37.5)) = 5%Z /\
  documented_count 3075 = 6%Z /\
  intermediateCount (mmToPoints (lit 1075) - lit 2 * mmToPoints (lit 37.5)) = 2%Z /\
  documented_count 1075 = 2%Z.
Proof. repeat split; vm_compute; reflexivity. Qed.

(** The round trip of the unit conversion is exact for some values and off
    in the last place for others. *)
Lemma roundtrip_examples :
  pointsToMm (mmToPoints (lit 1000)) = 1000%float /\
  pointsToMm (mmToPoints (lit 37.5)) = 37.5%float /\
  pointsToMm (mmToPoints (lit 700)) = 699.99999999999989%float /\
  pointsToMm (mmToPoints (lit 1)) = 0.99999999999999978%float.
Proof. repeat split; vm_compute; reflexivity. Qed.

(** The documented example, 3000 by 700 mm, as the program runs it: five
    intermediate circles per horizontal edge and one per vertical edge; the
    spacings, converted back as the log lines do, are 487.5 and 312.5 mm up
    to rounding in the last places. *)
Theorem documented_example_run customFont text centerText fontSizeMm :
  let width : float := mmToPoints (lit 3000) in
  let height : float := mmToPoints (lit 700) in
  let horizontalDistance := width - lit 2 * mmToPoints (lit 37.5) in
  let verticalDistance := height - lit 2 * mmToPoints (lit 37.5) in
  intermediateCount horizontalDistance = 5%Z /\
  intermediateCount verticalDistance = 1%Z /\
  pointsToMm (intermediateSpacing horizontalDistance) = 487.49999999999989%float /\
  pointsToMm (intermediateSpacing verticalDistance) = 312.49999999999994%float /\
  exists page fg,
    generatePDF customFont text (lit 3000) (lit 700) centerText fontSizeMm "black" "yellow"
      = Ok page /\
    circlesOf page = cornerCircles width height fg ++ horizontalCircles width height fg
                     ++ verticalCircles width height fg /\
    List.length (horizontalCircles width height fg) = 10%nat /\
    List.length (verticalCircles width height fg) = 2%nat.
Proof.
  cbv zeta. repeat split; try (vm_compute; reflexivity).
  destruct (generatePDF_ok customFont text (lit 3000) (lit 700) centerText fontSizeMm
              "black" "yellow" eq_refl eq_refl) as (fg & bg & Hpage).
  eexists. exists fg. split; [exact Hpage|].
  rewrite circlesOf_banner. split; [reflexivity|].
  split; vm_compute; reflexivity.
Qed.

(** The two layout theorems read in binary64 arithmetic. *)
Lemma circles_in_any_arithmetic_witness :
  let width : float := mmToPoints (lit 1000) in
  let height : float := mmToPoints (lit 700) in
  let circleOffset : float := mmToPoints (lit 37.5) in
  exists page c m y k,
    getColor "black" = JSTuple c m y k /\
    let fg := cmyk c m y k in
    generatePDF sampleFont "Banner PVC" (lit 1000) (lit 700) true (lit 25) "black" "yellow"
      = Ok page /\
    circlesOf page
    = [ circleAt fg circleOffset circleOffset;
        circleAt fg (width - circleOffset) circleOffset;
        circleAt fg circleOffset (height - circleOffset);
        circleAt fg (width - circleOffset) (height - circleOffset) ]
      ++ horizontalCircles width height fg ++ verticalCircles width height fg /\
    Forall (fun circle => circle_size circle = mmToPoints (lit 6) /\ circle_color circle = fg)
           (circlesOf page) /\
    List.length (horizontalCircles width height fg)
    = (2 * Z.to_nat (intermediateCount (width - lit 2 * circleOffset)%num))%nat /\
    List.length (verticalCircles width height fg)
    = (2 * Z.to_nat (intermediateCount (height - lit 2 * circleOffset)%num))%nat.
Proof.
  apply (circles_in_any_arithmetic (num := float) sampleFont "Banner PVC"
           (lit 1000) (lit 700) true (lit 25) "black" "yellow"); reflexivity.
Defined.

Lemma text_runs_in_any_arithmetic_witness :
  let text := String "A" (String newline "BCD") in
  let width : float := mmToPoints (lit 1000) in
  let height : float := mmToPoints (lit 700) in
  let fontSize : float := mmToPoints (lit 25) in
  let lineSpacing := fontSize * lit 1.3 in
  let lines := split newline text in
  let totalTextHeight := (ofNat (List.length lines) - lit 1) * lineSpacing + fontSize in
  let startY :=
    height / lit 2 + totalTextHeight / lit 2 - fontSize * lit 0.35 - lineSpacing * lit 0.5 in
  exists page fg,
    generatePDF sampleFont text (lit 1000) (lit 700) true (lit 25) "black" "yellow"
      = Ok page /\
    List.length (textsOf page) = S (occurrences newline text) /\
    textsOf page
    = mapiFrom 0 (fun line index =>
        (line,
         {| text_x := (width - widthOfTextAtSize sampleFont line fontSize) / lit 2;
            text_y := startY - ofNat index * lineSpacing;
            text_size := fontSize;
            text_color := fg |})) lines.
Proof.
  apply (text_runs_in_any_arithmetic (num := float) sampleFont
           (String "A" (String newline "BCD")) (lit 1000) (lit 700) true (lit 25)
           "black" "yellow"); reflexivity.
Defined.

(** Every whole-millimetre dimension up to 10 m, run in binary64 arithmetic:
    the program places the documented number of intermediate circles per
    edge, except at the twelve dimensions of [shortDimensions], where it
    places one fewer; at each of those the span between the corner circles is
    an exact multiple of 500 mm. *)
Theorem whole_millimetre_counts (dimension_mm : Z) :
  (1 <= dimension_mm <= 10000)%Z ->
  (In dimension_mm shortDimensions ->
   programCount dimension_mm = (documented_count (inject_Z dimension_mm) - 1)%Z /\
   ((dimension_mm - 75) mod 500 = 0)%Z) /\
  (~ In dimension_mm shortDimensions ->
   programCount dimension_mm = documented_count (inject_Z dimension_mm)).
Proof.
  intros Hrange.
  assert (Hall : forallb countAsListed (map Z.of_nat (seq 1 (Z.to_nat 10000))) = true)
    by (vm_compute; reflexivity).
  rewrite forallb_forall in Hall.
  assert (Hd : countAsListed dimension_mm = true).
  { apply Hall. apply in_map_iff. exists (Z.to_nat dimension_mm).
    split; [lia | apply in_seq; lia]. }
  unfold countAsListed in Hd.
  destruct (existsb (Z.eqb dimension_mm) shortDimensions) eqn:Hlisted.
  - apply andb_true_iff in Hd. destruct Hd as [Hcount Hspan].
    apply Z.eqb_eq in Hcount, Hspan.
    split; [intros _; now split|].
    intros Hnot. exfalso. apply Hnot.
    apply existsb_exists in Hlisted. destruct Hlisted as (x & Hx & Heq).
    apply Z.eqb_eq in Heq. now subst.
  - apply Z.eqb_eq in Hd. split; [|intros _; exact Hd].
    intros Hin. exfalso.
    assert (Htrue : existsb (Z.eqb dimension_mm) shortDimensions = true).
    { apply existsb_exists. exists dimension_mm. split; [exact Hin | apply Z.eqb_refl]. }
    congruence.
Qed.

Lemma whole_millimetre_counts_witness :
  (1 <= 575 <= 10000)%Z /\
  (In 575%Z shortDimensions ->
   programCount 575 = (documented_count (inject_Z 575) - 1)%Z /\
   ((575 - 75) mod 500 = 0)%Z) /\
  (~ In 575%Z shortDimensions ->
   programCount 575 = documented_count (inject_Z 575)).
Proof.
  split; [lia | apply (whole_millimetre_counts 575); lia].
Defined.

(** The checks of [dimensionChecked] and [countAsListed], evaluated on every
    whole-millimetre dimension up to 10 m. *)
Lemma whole_millimetres_checked :
  forallb (fun d => dimensionChecked d && countAsListed d)
    (map Z.of_nat (seq 1 (Z.to_nat 10000))) = true.
Proof. vm_compute. reflexivity. Qed.

Lemma In_whole_millimetres (dimension_mm : Z) :
  (1 <= dimension_mm <= 10000)%Z ->
  In dimension_mm (map Z.of_nat (seq 1 (Z.to_nat 10000))).
Proof.
  intros Hrange. apply in_map_iff. exists (Z.to_nat dimension_mm).
  split; [lia | apply in_seq; lia].
Qed.

(** An intermediate circle of the binary64 run lies strictly between the two
    corner circles of its edge. *)
Lemma position_between (dimension_mm i : Z) :
  (1 <= dimension_mm <= 10000)%Z ->
  (1 <= i <= programCount dimension_mm)%Z ->
  PrimFloat.ltb (mmToPoints (lit 37.5)) (programPosition dimension_mm i) = true /\
  PrimFloat.ltb (programPosition dimension_mm i)
    (mmToPoints (ofZ dimension_mm) - mmToPoints (lit 37.5)) = true.
Proof.
  intros Hrange Hi.
  pose proof whole_millimetres_checked as Hall.
  rewrite forallb_forall in Hall.
  pose proof (Hall _ (In_whole_millimetres _ Hrange)) as Hd.
  apply andb_true_iff in Hd. destruct Hd as [Hpositions _].
  unfold dimensionChecked in Hpositions. cbv zeta in Hpositions.
  rewrite forallb_forall in Hpositions.
  apply Exact.In_indices in Hi. pose proof (Hpositions i Hi) as Hchecked.
  unfold positionChecked in Hchecked. cbv zeta in Hchecked.
  change (PrimFloat.add (mmToPoints (lit 37.5)) (PrimFloat.mul (ofZ i) (programSpacing dimension_mm)))
    with (programPosition dimension_mm i) in Hchecked.
  rewrite !andb_true_iff in Hchecked.
  destruct Hchecked as (((Hlow & Hhigh) & _) & _).
  split; [exact Hlow | exact Hhigh].
Qed.

Lemma horizontalCircles_between (widthMm : Z) (height : float) fg :
  (1 <= widthMm <= 10000)%Z ->
  Forall (fun circle =>
            PrimFloat.ltb (mmToPoints (lit 37.5)) (circle_x circle) = true /\
            PrimFloat.ltb (circle_x circle)
              (mmToPoints (ofZ widthMm) - mmToPoints (lit 37.5)) = true)
         (horizontalCircles (mmToPoints (ofZ widthMm)) height fg).
Proof.
  intros Hrange. apply Forall_forall. intros circle Hin.
  unfold horizontalCircles in Hin. apply in_flat_map in Hin.
  destruct Hin as (i & Hi & Hcircle). apply Exact.In_indices in Hi.
  pose proof (position_between widthMm i Hrange Hi) as Hbetween.
  destruct Hcircle as [<-|[<-|[]]]; exact Hbetween.
Qed.

Lemma verticalCircles_between (heightMm : Z) (width : float) fg :
  (1 <= heightMm <= 10000)%Z ->
  Forall (fun circle =>
            PrimFloat.ltb (mmToPoints (lit 37.5)) (circle_y circle) = true /\
            PrimFloat.ltb (circle_y circle)
              (mmToPoints (ofZ heightMm) - mmToPoints (lit 37.5)) = true)
         (verticalCircles width (mmToPoints (ofZ heightMm)) fg).
Proof.
  intros Hrange. apply Forall_forall. intros circle Hin.
  unfold verticalCircles in Hin. apply in_flat_map in Hin.
  destruct Hin as (i & Hi & Hcircle). apply Exact.In_indices in Hi.
  pose proof (position_between heightMm i Hrange Hi) as Hbetween.
  destruct Hcircle as [<-|[<-|[]]]; exact Hbetween.
Qed.

(** The same dimensions, circle by circle: in the binary64 run every
    intermediate circle lies strictly between the two corner circles of its
    edge and strictly before the next one, so rounding never reorders the
    circles or pushes one onto a corner; and away from the twelve dimensions
    of [shortDimensions] its coordinate is within 10^-9 points of the
    documented position. *)
Theorem whole_millimetre_positions (dimension_mm i : Z) :
  (1 <= dimension_mm <= 10000)%Z ->
  (1 <= i <= programCount dimension_mm)%Z ->
  let width : float := mmToPoints (ofZ dimension_mm) in
  let circleOffset : float := mmToPoints (lit 37.5) in
  (forall height fg,
     horizontalCircles width height fg
     = flat_map (fun i => [ circleAt fg (programPosition dimension_mm i) (height - circleOffset);
                            circleAt fg (programPosition dimension_mm i) circleOffset ])
         (indices (programCount dimension_mm))) /\
  PrimFloat.ltb circleOffset (programPosition dimension_mm i) = true /\
  PrimFloat.ltb (programPosition dimension_mm i) (width - circleOffset) = true /\
  ((i < programCount dimension_mm)%Z ->
   PrimFloat.ltb (programPosition dimension_mm i) (programPosition dimension_mm (i + 1))
   = true) /\
  (~ In dimension_mm shortDimensions ->
   programCount dimension_mm = documented_count (inject_Z dimension_mm) /\
   (positionError dimension_mm i <= 1 # 1000000000)%Q).
Proof.
  intros Hrange Hi. cbv zeta.
  split; [reflexivity|].
  pose proof whole_millimetres_checked as Hall.
  rewrite forallb_forall in Hall.
  pose proof (In_whole_millimetres _ Hrange) as Hd.
  apply Hall in Hd. apply andb_true_iff in Hd. destruct Hd as [Hpositions Hcount].
  unfold dimensionChecked in Hpositions. cbv zeta in Hpositions.
  rewrite forallb_forall in Hpositions.
  apply Exact.In_indices in Hi. pose proof (Hpositions i Hi) as Hchecked.
  apply Exact.In_indices in Hi.
  unfold positionChecked in Hchecked. cbv zeta in Hchecked.
  change (PrimFloat.add (mmToPoints (lit 37.5)) (PrimFloat.mul (ofZ i) (programSpacing dimension_mm)))
    with (programPosition dimension_mm i) in Hchecked.
  rewrite !andb_true_iff in Hchecked.
  destruct Hchecked as (((Hlow & Hhigh) & Hnext) & Hclose).
  split; [exact Hlow|]. split; [exact Hhigh|]. split.
  - intros Hlt. apply orb_true_iff in Hnext. destruct Hnext as [Heq|Hnext]; [|exact Hnext].
    apply Z.eqb_eq in Heq. lia.
  - intros Hnot.
    assert (Hlisted : existsb (Z.eqb dimension_mm) shortDimensions = false).
    { destruct (existsb (Z.eqb dimension_mm) shortDimensions) eqn:Hlisted; [|reflexivity].
      exfalso. apply Hnot. apply existsb_exists in Hlisted.
      destruct Hlisted as (x & Hx & Heq). apply Z.eqb_eq in Heq. now subst. }
    unfold countAsListed in Hcount. rewrite Hlisted in Hcount, Hclose.
    apply Z.eqb_eq in Hcount. cbn [orb] in Hclose. apply Qle_bool_iff in Hclose.
    split; [exact Hcount | exact Hclose].
Qed.

Lemma whole_millimetre_positions_witness :
  (1 <= 3000 <= 10000)%Z /\ (1 <= 5 <= programCount 3000)%Z /\
  PrimFloat.ltb (mmToPoints (lit 37.5)) (programPosition 3000 5) = true /\
  PrimFloat.ltb (programPosition 3000 5) (mmToPoints (ofZ 3000) - mmToPoints (lit 37.5)) = true /\
  (~ In 3000%Z shortDimensions ->
   programCount 3000 = documented_count (inject_Z 3000) /\
   (positionError 3000 5 <= 1 # 1000000000)%Q).
Proof.
  assert (Hrange : (1 <= 3000 <= 10000)%Z) by lia.
  assert (Hi : (1 <= 5 <= programCount 3000)%Z) by (vm_compute; split; discriminate).
  pose proof (whole_millimetre_positions 3000 5 Hrange Hi) as (_ & Hlow & Hhigh & _ & Hclose).
  split; [exact Hrange|]. split; [exact Hi|]. split; [exact Hlow|].
  split; [exact Hhigh | exact Hclose].
Defined.

End Double.

(** ** Rounded arithmetic: the tolerance of the round trip

    The standard model of floating-point arithmetic: every literal and every
    operation returns its exact result rounded, with a relative error of at
    most [u] (for binary64, away from overflow and underflow, [u = 2^-53]). *)

Section Rounded.

Variable rnd : Q -> Q.
Variable u : Q.
Hypothesis u_small : 0 <= u <= 1 # 10.
Hypothesis rnd_error : forall q, Qabs (rnd q - q) <= u * Qabs q.

Lemma within_rnd e y q :
  0 <= e -> within e y q -> within (e + u * (1 + e)) (rnd y) q.
Proof.
  unfold within. intros He Hy.
  pose proof (rnd_error y) as Hr.
  pose proof (Qabs_triangle (rnd y - y) (y - q)) as Ht.
  assert (E : rnd y - y + (y - q) == rnd y - q) by ring. rewrite E in Ht.
  pose proof (Qabs_triangle (y - q) q) as Ht'.
  assert (E' : y - q + q == y) by ring. rewrite E' in Ht'.
  pose proof (Qabs_nonneg q) as Hq.
  generalize dependent (Qabs (rnd y - q)). generalize dependent (Qabs (rnd y - y)).
  generalize dependent (Qabs (y - q)). generalize dependent (Qabs y).
  generalize dependent (Qabs q). intros. nra.
Qed.

Lemma within_mult e y q t : within e y q -> within e (y * t) (q * t).
Proof.
  unfold within. intros Hy.
  assert (E : y * t - q * t == (y - q) * t) by ring.
  rewrite E, !Qabs_Qmult.
  pose proof (Qabs_nonneg t) as Ht.
  rewrite Qmult_assoc. now apply Qmult_le_compat_r.
Qed.

Lemma within_div e y q t : within e y q -> within e (y / t) (q / t).
Proof. unfold Qdiv. apply within_mult. Qed.

Lemma within_eq e e' y q q' :
  q == q' -> e <= e' -> within e y q -> within e' y q'.
Proof.
  unfold within. intros Hq He Hy. rewrite <- Hq.
  pose proof (Qabs_nonneg q) as Hq0.
  generalize dependent (Qabs (y - q)). generalize dependent (Qabs q). intros. nra.
Qed.

Lemma rnd_positive q : 0 < q -> 0 < rnd q.
Proof.
  intros Hq. pose proof (rnd_error q) as Hr.
  rewrite (Qabs_pos q) in Hr by lra.
  apply Qabs_Qle_condition in Hr. nra.
Qed.

(** The four roundings of the round trip, one after the other. *)
Lemma roundtrip_rounded_within (x : Q) :
  within (5 * u) (@pointsToMm Q (RoundedNumber rnd) (@mmToPoints Q (RoundedNumber rnd) x)) x.
Proof.
  unfold pointsToMm, mmToPoints. cbn [lit mul div RoundedNumber].
  assert (Hc : 0 < rnd 25.4) by (apply rnd_positive; lra).
  assert (Hk : 0 < rnd 72) by (apply rnd_positive; lra).
  set (c := rnd 25.4) in *. set (k := rnd 72) in *.
  assert (Hu2 : u * u <= (1 # 10) * u) by nra.
  assert (Hu3 : u * u * u <= (1 # 100) * u) by nra.
  assert (Hu4 : u * u * u * u <= (1 # 1000) * u) by nra.
  assert (H1 : within u (rnd (x / c)) (x / c)) by apply rnd_error.
  apply (within_mult _ _ _ k), within_rnd in H1; [|lra].
  apply (within_mult _ _ _ c), within_rnd in H1; [|nra].
  apply (within_div _ _ _ k), within_rnd in H1; [|nra].
  apply (within_eq _ (5 * u) _ _ x) in H1; [exact H1 | field; lra | lra].
Qed.

(** In rounded arithmetic the round trip returns [x] with a relative error
    of at most [5 * u]: four roundings, each of at most [u]. *)
Theorem conversion_roundtrip_rounded (x : Q) :
  Qabs (@pointsToMm Q (RoundedNumber rnd) (@mmToPoints Q (RoundedNumber rnd) x) - x) <= 5 * u * Qabs x.
Proof.
  unfold pointsToMm, mmToPoints. cbn [lit mul div RoundedNumber].
  assert (Hc : 0 < rnd 25.4) by (apply rnd_positive; lra).
  assert (Hk : 0 < rnd 72) by (apply rnd_positive; lra).
  set (c := rnd 25.4) in *. set (k := rnd 72) in *.
  assert (H1 : within u (rnd (x / c)) (x / c)) by apply rnd_error.
  apply (within_mult _ _ _ k) in H1.
  apply within_rnd in H1; [|lra].
  apply (within_mult _ _ _ c) in H1.
  apply within_rnd in H1; [|nra].
  apply (within_div _ _ _ k) in H1.
  apply within_rnd in H1; [|nra].
  apply (within_eq _ (5 * u) _ _ x) in H1; [exact H1 | field; lra |].
  assert (Hu2 : u * u <= (1 # 10) * u) by nra.
  assert (Hu3 : u * u * u <= (1 # 100) * u) by nra.
  assert (Hu4 : u * u * u * u <= (1 # 1000) * u) by nra.
  lra.
Qed.

End Rounded.

(** A rounding that always errs by the full relative error: it returns
    [q * (1 + 10^-6)]. *)
Lemma conversion_roundtrip_rounded_witness :
  let u := 1 # 1000000 in
  let rnd := fun q : Q => q * (1 + u) in
  Qabs (@pointsToMm Q (RoundedNumber rnd) (@mmToPoints Q (RoundedNumber rnd) 700) - 700)
  <= 5 * u * Qabs 700.
Proof.
  intros u rnd.
  apply (conversion_roundtrip_rounded rnd u).
  - split; discriminate.
  - intros q. unfold rnd.
    assert (E : q * (1 + u) - q == q * u) by ring.
    rewrite E, Qabs_Qmult, (Qabs_pos u) by discriminate.
    rewrite Qmult_comm. apply Qle_refl.
Defined.

(** ** The claims on the values the program computes

    The statements of this part hold in the arithmetic of the program.
    Their equalities are between values the code computes, operation for
    operation and in the code's order, so they hold in every arithmetic;
    their inequalities are evaluated in binary64.  They speak of the runs
    that return a page: a run that fails (a colour name inherited from
    [Object.prototype], or an error raised inside pdf-lib or by the file
    system, which the embedding does not contain) draws nothing they could
    describe. *)

Module AsComputed.

Import Binary64.
Local Open Scope string_scope.
Local Open Scope list_scope.
Local Open Scope num_scope.

Lemma float_neq (a b : float) :
  PrimFloat.eqb a b = false -> PrimFloat.eqb b b = true -> a <> b.
Proof. intros Hab Hbb E. rewrite E in Hab. congruence. Qed.

(** A run that returns a page has resolved both colour names and has drawn
    [bannerDrawings]. *)
Lemma run_inversion {num : Type} `{Number num} (customFont : PDFFont num) text
    (widthMm heightMm : num) (centerText : bool) (fontSizeMm : num)
    foregroundColor backgroundColor page :
  generatePDF customFont text widthMm heightMm centerText fontSizeMm
    foregroundColor backgroundColor = Ok page ->
  exists fgC fgM fgY fgK bgC bgM bgY bgK,
    getColor foregroundColor = JSTuple fgC fgM fgY fgK /\
    getColor backgroundColor = JSTuple bgC bgM bgY bgK /\
    page = {| pageSize := (mmToPoints widthMm, mmToPoints heightMm);
              drawings := bannerDrawings customFont text (mmToPoints widthMm)
                            (mmToPoints heightMm) centerText (mmToPoints fontSizeMm)
                            (cmyk fgC fgM fgY fgK) (cmyk bgC bgM bgY bgK) |}.
Proof.
  intros Hrun.
  destruct (generatePDF_Ok_inv _ _ _ _ _ _ _ _ _ Hrun) as [Hfg Hbg].
  destruct (getColor_tuple _ Hfg) as (fgC & fgM & fgY & fgK & Efg).
  destruct (getColor_tuple _ Hbg) as (bgC & bgM & bgY & bgK & Ebg).
  exists fgC, fgM, fgY, fgK, bgC, bgM, bgY, bgK.
  split; [exact Efg|]. split; [exact Ebg|].
  rewrite (generatePDF_drawings _ _ _ _ _ _ _ _ _ _ _ _ _ _ _ _ Efg Ebg) in Hrun.
  now injection Hrun as <-.
Qed.

(** *** Corner circles *)

(** C3, as the program computes it.  Every run that returns a page, for any
    width and height and in any arithmetic, has drawn as its first four
    circles the corner circles, centred at (o, o), (W - o, o), (o, H - o) and
    (W - o, H - o), where W and H are the converted width and height,
    o = mmToPoints(37.5), and each subtraction is the program's own; the
    circles that follow are the intermediate circles of the horizontal and
    then of the vertical edges; every circle has the radius mmToPoints(6),
    whose double is mmToPoints(12) in binary64 too.  In binary64, for every
    whole-millimetre width and height up to 10 m, each intermediate circle
    lies strictly between the two corner circles of its edge, so the corner
    circles are exactly four. *)
Theorem corner_circles_as_computed :
  (forall (num : Type) (N : Number num) (customFont : PDFFont num) text
          (widthMm heightMm : num) (centerText : bool) (fontSizeMm : num)
          foregroundColor backgroundColor page,
     generatePDF customFont text widthMm heightMm centerText fontSizeMm
       foregroundColor backgroundColor = Ok page ->
     let width := mmToPoints widthMm in
     let height := mmToPoints heightMm in
     let circleOffset := mmToPoints (lit 37.5) in
     exists c m y k c1 c2 c3 c4,
       getColor foregroundColor = JSTuple c m y k /\
       circlesOf page
       = c1 :: c2 :: c3 :: c4
         :: horizontalCircles width height (cmyk c m y k)
            ++ verticalCircles width height (cmyk c m y k) /\
       (circle_x c1 = circleOffset /\ circle_y c1 = circleOffset) /\
       (circle_x c2 = width - circleOffset /\ circle_y c2 = circleOffset) /\
       (circle_x c3 = circleOffset /\ circle_y c3 = height - circleOffset) /\
       (circle_x c4 = width - circleOffset /\ circle_y c4 = height - circleOffset) /\
       Forall (fun circle => circle_size circle = mmToPoints (lit 6)) (circlesOf page)) /\
  (lit 2 * mmToPoints (lit 6) : float) = mmToPoints (lit 12) /\
  (forall (widthMm heightMm : Z) (fg : Color float),
     (1 <= widthMm <= 10000)%Z -> (1 <= heightMm <= 10000)%Z ->
     let width : float := mmToPoints (ofZ widthMm) in
     let height : float := mmToPoints (ofZ heightMm) in
     let circleOffset : float := mmToPoints (lit 37.5) in
     Forall (fun circle =>
               PrimFloat.ltb circleOffset (circle_x circle) = true /\
               PrimFloat.ltb (circle_x circle) (width - circleOffset) = true)
            (horizontalCircles width height fg) /\
     Forall (fun circle =>
               PrimFloat.ltb circleOffset (circle_y circle) = true /\
               PrimFloat.ltb (circle_y circle) (height - circleOffset) = true)
            (verticalCircles width height fg)).
Proof.
  split; [|split].
  - intros num N customFont text widthMm heightMm centerText fontSizeMm
      foregroundColor backgroundColor page Hrun. cbv zeta.
    destruct (run_inversion _ _ _ _ _ _ _ _ _ Hrun)
      as (fgC & fgM & fgY & fgK & bgC & bgM & bgY & bgK & Efg & Ebg & ->).
    exists fgC, fgM, fgY, fgK. do 4 eexists.
    split; [exact Efg|].
    rewrite circlesOf_banner. cbn [cornerCircles app].
    split; [reflexivity|].
    cbn [circleAt circle_x circle_y].
    repeat (split; [split; reflexivity|]).
    eapply Forall_impl; [|apply (banner_circles_uniform (mmToPoints widthMm)
                                   (mmToPoints heightMm) (cmyk fgC fgM fgY fgK))].
    now intros circle [Hsize _].
  - vm_compute. reflexivity.
  - intros widthMm heightMm fg Hw Hh. cbv zeta.
    split; [now apply Double.horizontalCircles_between
           | now apply Double.verticalCircles_between].
Qed.

Lemma corner_circles_as_computed_witness :
  exists page c m y k c1 c2 c3 c4,
    generatePDF (num := float) sampleFont "Banner PVC" (lit 3000) (lit 700) true (lit 25)
      "black" "yellow" = Ok page /\
    getColor "black" = JSTuple c m y k /\
    circlesOf page
    = c1 :: c2 :: c3 :: c4
      :: horizontalCircles (mmToPoints (lit 3000)) (mmToPoints (lit 700)) (cmyk c m y k)
         ++ verticalCircles (mmToPoints (lit 3000)) (mmToPoints (lit 700)) (cmyk c m y k) /\
    (circle_x c1 = mmToPoints (lit 37.5) /\ circle_y c1 = mmToPoints (lit 37.5)) /\
    (circle_x c4 = mmToPoints (lit 3000) - mmToPoints (lit 37.5) /\
     circle_y c4 = mmToPoints (lit 700) - mmToPoints (lit 37.5)).
Proof.
  destruct (generatePDF_ok (num := float) sampleFont "Banner PVC" (lit 3000) (lit 700) true
              (lit 25) "black" "yellow" eq_refl eq_refl) as (fg & bg & Hpage).
  destruct (proj1 corner_circles_as_computed float _ _ _ _ _ _ _ _ _ _ Hpage)
    as (c & m & y & k & c1 & c2 & c3 & c4 & Hcolor & Hcircles & Hc1 & _ & _ & Hc4 & _).
  eexists. exists c, m, y, k, c1, c2, c3, c4.
  split; [exact Hpage|]. split; [exact Hcolor|]. split; [exact Hcircles|].
  split; [exact Hc1 | exact Hc4].
Defined.

(** The claim's centres, read as the converted [height_mm - 37.5] and as
    lying exactly the converted 37.5 mm from the edge, are not what the
    program draws: on the default banner, 1000 by 700 mm, the third corner
    circle has y = 1877.9527559055118 where the converted 700 - 37.5 is
    1877.952755905512, and its distance from the top edge is
    106.29921259842513 where the converted 37.5 is 106.2992125984252.  And
    not every run has corner circles: with the foreground name
    ["constructor"] the same banner throws before anything is drawn. *)
Lemma corner_distance_not_exact :
  exists page c1 c2 c3 c4 others,
    generatePDF (num := float) sampleFont "Banner PVC" (lit 1000) (lit 700) true (lit 25)
      "black" "yellow" = Ok page /\
    circlesOf page = c1 :: c2 :: c3 :: c4 :: others /\
    circle_y c3 = 1877.9527559055118%float /\
    mmToPoints (lit 700 - lit 37.5) = 1877.952755905512%float /\
    circle_y c3 <> mmToPoints (lit 700 - lit 37.5) /\
    mmToPoints (lit 700) - circle_y c3 = 106.29921259842513%float /\
    mmToPoints (lit 37.5) = 106.2992125984252%float /\
    mmToPoints (lit 700) - circle_y c3 <> mmToPoints (lit 37.5) /\
    generatePDF (num := float) sampleFont "Banner PVC" (lit 1000) (lit 700) true (lit 25)
      "constructor" "yellow" = Throw (TypeError "value is not iterable").
Proof.
  eexists. do 5 eexists.
  split; [vm_compute; reflexivity|].
  split; [vm_compute; reflexivity|].
  split; [vm_compute; reflexivity|].
  split; [vm_compute; reflexivity|].
  split; [apply float_neq; vm_compute; reflexivity|].
  split; [vm_compute; reflexivity|].
  split; [vm_compute; reflexivity|].
  split; [apply float_neq; vm_compute; reflexivity|].
  reflexivity.
Qed.

(** *** The panel *)




(** *** Text lines *)




(** *** Unit conversion *)

(** C9, within the range of the arithmetic.  [mmToPoints] is
    [mm / 25.4 * 72] in every arithmetic.  Where every literal and operation
    rounds with a relative error of at most [u] (binary64 away from overflow
    and underflow, with [u = 2^-53]), the round trip returns [x] with a
    relative error of at most [5 * u]; and in binary64 itself, for every
    whole number of millimetres up to 10 m, the value that comes back is
    within [5 * 2^-53 * x] of [x]. *)
Theorem conversion_roundtrip_tolerance :
  (forall (num : Type) (N : Number num) (mm : num),
     mmToPoints mm = mm / lit 25.4 * lit 72) /\
  (forall (rnd : Q -> Q) (u x : Q),
     (0 <= u <= 1 # 10)%Q ->
     (forall q, Qabs (rnd q - q) <= u * Qabs q)%Q ->
     (Qabs (@pointsToMm Q (RoundedNumber rnd) (@mmToPoints Q (RoundedNumber rnd) x) - x)
      <= 5 * u * Qabs x)%Q) /\
  (forall x : Z,
     (1 <= x <= 10000)%Z ->
     (Qabs (exactValue (pointsToMm (mmToPoints (ofZ x))) - inject_Z x)
      <= (5 # 9007199254740992) * inject_Z x)%Q).
Proof.
  split; [reflexivity|]. split.
  - intros rnd u x Hu Hrnd. exact (roundtrip_rounded_within rnd u Hu Hrnd x).
  - intros x Hrange.
    assert (Hall : forallb (fun x => Qle_bool
                                       (Qabs (exactValue (pointsToMm (mmToPoints (ofZ x)))
                                              - inject_Z x)%Q)
                                       ((5 # 9007199254740992) * inject_Z x)%Q)
                     (map Z.of_nat (seq 1 (Z.to_nat 10000))) = true)
      by (vm_compute; reflexivity).
    rewrite forallb_forall in Hall. apply Qle_bool_iff, Hall.
    now apply Double.In_whole_millimetres.
Qed.

Lemma conversion_roundtrip_tolerance_witness :
  (Qabs (exactValue (pointsToMm (mmToPoints (ofZ 700))) - inject_Z 700)
   <= (5 # 9007199254740992) * inject_Z 700)%Q.
Proof.
  apply (proj2 (proj2 conversion_roundtrip_tolerance) 700%Z). lia.
Defined.

(** The round trip outside the range: the smallest positive binary64 number
    comes back as 0, and 1e308 comes back as infinity. *)
Lemma roundtrip_out_of_range :
  PrimFloat.ltb (lit 0) 5e-324%float = true /\
  pointsToMm (mmToPoints 5e-324%float) = 0%float /\
  pointsToMm (mmToPoints 1e308%float) = infinity.
Proof. repeat split; vm_compute; reflexivity. Qed.

(** *** Spacing *)


End AsComputed.

(** ** Font loading *)

Section FontFallback.

Context {num : Type}.
Local Open Scope string_scope.
Local Open Scope list_scope.

(** The font is the first of three candidates that loads: the file
    DejaVuSansCondensed-Bold.ttf of the working directory, the system's
    DejaVuSans-Bold.ttf, the built-in Helvetica Bold.  A file that is read
    but cannot be embedded counts as not loaded.  Loading fails only when
    all three fail, and then with the failure of the built-in font; the
    console gets one line when the first candidate loads and two
    otherwise. *)
Theorem font_fallback (runtime : FontRuntime num) :
  let custom := readAndEmbed runtime "DejaVuSansCondensed-Bold.ttf" in
  let system := readAndEmbed runtime "/usr/share/fonts/truetype/dejavu/DejaVuSans-Bold.ttf" in
  let builtin := embedFont runtime (StandardFont HelveticaBold) in
  snd (loadFont runtime) = firstDone custom [system; builtin] /\
  ((exists font, snd (loadFont runtime) = Done font) <->
   (exists font, custom = Done font) \/ (exists font, system = Done font) \/
   (exists font, builtin = Done font)) /\
  (forall reason, snd (loadFont runtime) = Failed reason -> builtin = Failed reason) /\
  (forall bytes reason,
     readFile runtime "DejaVuSansCondensed-Bold.ttf" = Done bytes ->
     embedFont runtime (FontBytes bytes) = Failed reason ->
     snd (loadFont runtime) = firstDone system [builtin]) /\
  List.length (fst (loadFont runtime))
  = match custom with Done _ => 1%nat | Failed _ => 2%nat end.
Proof.
  cbv zeta. unfold loadFont.
  destruct (readAndEmbed runtime "DejaVuSansCondensed-Bold.ttf") as [font1|reason1] eqn:E1;
    [|destruct (readAndEmbed runtime "/usr/share/fonts/truetype/dejavu/DejaVuSans-Bold.ttf")
        as [font2|reason2] eqn:E2;
      [|destruct (embedFont runtime (StandardFont HelveticaBold)) as [font3|reason3] eqn:E3]];
    cbn [fst snd firstDone List.length app].
  all: split; [reflexivity|].
  - split; [split; intros _; eauto|]. split; [discriminate|]. split; [|reflexivity].
    intros bytes reason Hread Hembed. unfold readAndEmbed in E1.
    rewrite Hread, Hembed in E1. discriminate.
  - split; [split; intros _; eauto|]. split; [discriminate|]. split; reflexivity.
  - split; [split; intros _; eauto 6|]. split; [discriminate|]. split; reflexivity.
  - split.
    { split; [intros [font Hf]; discriminate|].
      intros [[font Hf]|[[font Hf]|[font Hf]]]; discriminate. }
    split; [intros reason Hr; exact Hr|]. split; reflexivity.
Qed.

End FontFallback.

Lemma font_fallback_witness :
  snd (loadFont systemFontRuntime) = Done sampleFont /\
  List.length (fst (loadFont systemFontRuntime)) = 2%nat.
Proof.
  pose proof (font_fallback systemFontRuntime) as (Hfont & _ & _ & _ & Hconsole).
  split; [exact Hfont | exact Hconsole].
Defined.

(** ** The test script *)

Module TestSuite.

Import TestScript.
Local Open Scope string_scope.
Local Open Scope list_scope.

Lemma includes_false array item :
  includes array item = false <-> ~ In item array.
Proof.
  unfold includes. split.
  - intros Hnone Hin.
    assert (Hsome : existsb (String.eqb item) array = true)
      by (apply existsb_exists; exists item; split; [exact Hin | apply String.eqb_refl]).
    congruence.
  - intros Hnot. destruct (existsb (String.eqb item) array) eqn:Hsome; [|reflexivity].
    apply existsb_exists in Hsome. destruct Hsome as (x & Hx & Heq).
    apply String.eqb_eq in Heq. subst. contradiction.
Qed.

Lemma indexOfFrom_missing index array item :
  ~ In item array -> indexOfFrom index array item = (-1)%Z.
Proof.
  revert index; induction array as [|x rest IH]; intros index Hnot; [reflexivity|].
  cbn [indexOfFrom]. destruct (String.eqb_spec x item) as [->|Hne].
  - exfalso. apply Hnot. now left.
  - apply IH. intros Hin. apply Hnot. now right.
Qed.

Lemma indexOfFrom_first index before item rest :
  ~ In item before ->
  indexOfFrom index (before ++ item :: rest) item = (index + Z.of_nat (List.length before))%Z.
Proof.
  revert index; induction before as [|x before IH]; intros index Hnot.
  - cbn. rewrite String.eqb_refl. lia.
  - cbn [app indexOfFrom]. destruct (String.eqb_spec x item) as [->|Hne].
    + exfalso. apply Hnot. now left.
    + rewrite IH by (intros Hin; apply Hnot; now right).
      cbn [List.length]. lia.
Qed.

Lemma indexOfFrom_bounds index array item :
  (indexOfFrom index array item = -1 \/ index <= indexOfFrom index array item)%Z.
Proof.
  revert index; induction array as [|x rest IH]; intros index; [now left|].
  cbn [indexOfFrom]. destruct (String.eqb x item); [right; lia|].
  destruct (IH (index + 1)%Z) as [->|Hle]; [now left | right; lia].
Qed.

(** The lookup [args[args.indexOf(flag) + 1]] of the test script: the value
    is the argument after the first occurrence of the flag; a flag in last
    position gives [undefined]; and for a flag that does not occur,
    [indexOf] is -1, so the lookup returns the first argument, whatever it
    is. *)
Theorem option_lookup (args : list string) (flag : string) :
  (forall before value rest,
     args = before ++ flag :: value :: rest -> ~ In flag before ->
     indexOf args flag = Z.of_nat (List.length before) /\
     optionValue args flag = Some value) /\
  (forall before,
     args = before ++ [flag] -> ~ In flag before -> optionValue args flag = None) /\
  (~ In flag args ->
     indexOf args flag = (-1)%Z /\ optionValue args flag = nth_error args 0) /\
  (includes args flag = true <-> In flag args).
Proof.
  split; [|split; [|split]].
  - intros before value rest -> Hnot.
    unfold optionValue, indexOf. rewrite indexOfFrom_first by exact Hnot.
    split; [lia|]. unfold element.
    destruct (Z.ltb_spec (0 + Z.of_nat (List.length before) + 1) 0) as [Hneg|_]; [lia|].
    replace (Z.to_nat (0 + Z.of_nat (List.length before) + 1)) with (S (List.length before))
      by lia.
    rewrite nth_error_app2 by lia.
    replace (S (List.length before) - List.length before)%nat with 1%nat by lia.
    reflexivity.
  - intros before -> Hnot.
    unfold optionValue, indexOf. rewrite indexOfFrom_first by exact Hnot.
    unfold element.
    destruct (Z.ltb_spec (0 + Z.of_nat (List.length before) + 1) 0) as [Hneg|_]; [lia|].
    apply nth_error_None. rewrite length_app. cbn [List.length]. lia.
  - intros Hnot. unfold optionValue, indexOf.
    rewrite indexOfFrom_missing by exact Hnot. split; reflexivity.
  - destruct (includes args flag) eqn:Hinc.
    + split; [intros _|reflexivity].
      unfold includes in Hinc. apply existsb_exists in Hinc.
      destruct Hinc as (x & Hx & Heq). apply String.eqb_eq in Heq. now subst.
    + apply includes_false in Hinc. split; [discriminate | contradiction].
Qed.

Lemma option_lookup_witness :
  indexOf [ "--text"; "TEST BANNER"; "--output"; "test_basic.pdf" ] "--output" = 2%Z /\
  optionValue [ "--text"; "TEST BANNER"; "--output"; "test_basic.pdf" ] "--output"
  = Some "test_basic.pdf" /\
  optionValue [ "--text"; "TEST BANNER"; "--output"; "test_basic.pdf" ] "--fg"
  = Some "--text".
Proof.
  pose proof (option_lookup [ "--text"; "TEST BANNER"; "--output"; "test_basic.pdf" ]
                "--output") as (Hfound & _).
  pose proof (option_lookup [ "--text"; "TEST BANNER"; "--output"; "test_basic.pdf" ]
                "--fg") as (_ & _ & Hmissing & _).
  destruct (Hfound [ "--text"; "TEST BANNER" ] "test_basic.pdf" [] eq_refl) as [Hindex Hvalue].
  { cbn. intros [Heq|[Heq|[]]]; discriminate. }
  destruct Hmissing as [_ Hfirst].
  { cbn. intros [Heq|[Heq|[Heq|[Heq|[]]]]]; discriminate. }
  split; [exact Hindex|]. split; [exact Hvalue | exact Hfirst].
Defined.

Lemma runTest_true_iff (runtime : TestRuntime) (testCase : TestCase) :
  runTest runtime testCase = true <->
  (exists u, importMain runtime = Done u) /\
  processOutput runtime ("run" :: "--allow-all" :: "main.ts" :: args testCase) = Done 0%Z /\
  statIsFile runtime (expectedOutput testCase) = Done true /\
  (exists u, remove runtime (expectedOutput testCase) = Done u).
Proof.
  unfold runTest.
  destruct (importMain runtime) as [u|r]; cbv zeta.
  2: { split; [discriminate | intros ([u Hu] & _); discriminate]. }
  destruct (processOutput runtime _) as [code|r].
  2: { split; [discriminate | intros (_ & Hp & _); discriminate]. }
  destruct (Z.eqb_spec code 0) as [->|Hcode].
  2: { split; [discriminate | intros (_ & [= Hp] & _); contradiction]. }
  destruct (statIsFile runtime _) as [[|]|r].
  2: { split; [discriminate | intros (_ & _ & Hs & _); discriminate]. }
  2: { split; [discriminate | intros (_ & _ & Hs & _); discriminate]. }
  destruct (remove runtime _) as [u'|r].
  - split; [intros _; eauto 6 | reflexivity].
  - split; [discriminate | intros (_ & _ & _ & [u' Hu]); discriminate].
Qed.

(** When a test passes: the import of main.ts succeeded, the child process
    ran and exited with code 0, the expected output exists and is a file, and
    its removal succeeded.  In particular a run that produced the file but
    could not remove it is reported as failed, and so is one whose expected
    output is a directory. *)
Theorem runTest_verdict (runtime : TestRuntime) (testCase : TestCase) :
  (runTest runtime testCase = true <->
   (exists u, importMain runtime = Done u) /\
   processOutput runtime ("run" :: "--allow-all" :: "main.ts" :: args testCase) = Done 0%Z /\
   statIsFile runtime (expectedOutput testCase) = Done true /\
   (exists u, remove runtime (expectedOutput testCase) = Done u)) /\
  (forall reason,
     remove runtime (expectedOutput testCase) = Failed reason ->
     runTest runtime testCase = false) /\
  (statIsFile runtime (expectedOutput testCase) = Done false ->
   runTest runtime testCase = false) /\
  (forall code,
     processOutput runtime ("run" :: "--allow-all" :: "main.ts" :: args testCase) = Done code ->
     code <> 0%Z -> runTest runtime testCase = false).
Proof.
  pose proof (runTest_true_iff runtime testCase) as Hiff.
  split; [exact Hiff|].
  destruct (runTest runtime testCase); [|repeat split].
  destruct (proj1 Hiff eq_refl) as (_ & Hprocess & Hstat & [u Hremove]).
  split; [|split].
  - intros reason Hfailed. congruence.
  - intros Hdir. congruence.
  - intros code Hcode Hnonzero. congruence.
Qed.

Lemma runTest_verdict_witness :
  runTest passingRuntime (nth 0 testCases (Build_TestCase "" [] "" "")) = true.
Proof.
  apply (proj1 (runTest_verdict passingRuntime (nth 0 testCases (Build_TestCase "" [] "" "")))).
  cbn. repeat split; eauto.
Defined.

Lemma countResults_from runtime cases passed failed :
  fold_left (fun counters testCase =>
               let '(passed, failed) := counters in
               if runTest runtime testCase then (S passed, failed) else (passed, S failed))
            cases (passed, failed)
  = ((passed + List.length (filter (runTest runtime) cases))%nat,
     (failed + List.length (filter (fun testCase => negb (runTest runtime testCase)) cases))%nat).
Proof.
  revert passed failed; induction cases as [|testCase cases IH]; intros passed failed.
  - cbn. f_equal; lia.
  - cbn [fold_left filter]. destruct (runTest runtime testCase); rewrite IH; cbn; f_equal; lia.
Qed.

Lemma filter_partition_length {A} (f : A -> bool) (l : list A) :
  (List.length (filter f l) + List.length (filter (fun a => negb (f a)) l))%nat
  = List.length l.
Proof. induction l as [|a l IH]; [reflexivity|]. cbn. destruct (f a); cbn; lia. Qed.

Lemma filter_all_length {A} (f : A -> bool) (l : list A) :
  List.length (filter (fun a => negb (f a)) l) = 0%nat <-> forall a, In a l -> f a = true.
Proof.
  induction l as [|a l IH]; cbn.
  - split; [intros _ b [] | reflexivity].
  - destruct (f a) eqn:Hfa; cbn.
    + rewrite IH. split.
      * intros Hall b [<-|Hb]; [exact Hfa | now apply Hall].
      * intros Hall b Hb. apply Hall. now right.
    + split; [discriminate|]. intros Hall.
      specialize (Hall a (or_introl eq_refl)). congruence.
Qed.

Lemma countResults_total (runtime : TestRuntime) (cases : list TestCase) :
  countResults runtime cases
  = (List.length (filter (runTest runtime) cases),
     List.length (filter (fun testCase => negb (runTest runtime testCase)) cases)).
Proof. unfold countResults. now rewrite countResults_from. Qed.

(** The report of [runAllTests]: the two counters add up to the five test
    cases, so the success rate never divides by zero; the rate computed in
    binary64 is 20 times the number of passed tests up to 10^-13 (three of
    five gives 60.00000000000001), so it is printed with one decimal as that
    number, and it is exactly 100 only for a full pass; and the closing
    message is the one for a full pass exactly when the import of main.ts
    succeeded and each of the five child processes exited with code 0, left
    its expected output as a file, and the file could be removed. *)
Theorem runAllTests_report (runtime : TestRuntime) :
  let '(passed, failed, rate, allPassed) := runAllTests runtime in
  (passed + failed)%nat = 5%nat /\
  passed = List.length (filter (runTest runtime) testCases) /\
  (Qabs (exactValue rate - 20 * inject_Z (Z.of_nat passed)) <= 1 # 10000000000000)%Q /\
  (allPassed = true <-> PrimFloat.eqb rate 100%float = true) /\
  (allPassed = true <->
   (exists u, importMain runtime = Done u) /\
   forall testCase, In testCase testCases ->
     processOutput runtime ("run" :: "--allow-all" :: "main.ts" :: args testCase) = Done 0%Z /\
     statIsFile runtime (expectedOutput testCase) = Done true /\
     (exists u, remove runtime (expectedOutput testCase) = Done u)).
Proof.
  unfold runAllTests. rewrite countResults_total.
  set (passed := List.length (filter (runTest runtime) testCases)).
  assert (Hall : List.length (filter (fun testCase => negb (runTest runtime testCase))
                                testCases) = 0%nat <->
                 forall testCase, In testCase testCases -> runTest runtime testCase = true)
    by apply filter_all_length.
  assert (Hsum : (passed + List.length (filter (fun testCase => negb (runTest runtime testCase))
                                          testCases))%nat = 5%nat)
    by (unfold passed; now rewrite filter_partition_length).
  set (failed := List.length (filter (fun testCase => negb (runTest runtime testCase))
                                testCases)) in *.
  clearbody passed failed.
  split; [exact Hsum|]. split; [reflexivity|].
  split; [|split].
  - assert (Hcases : (passed = 0 /\ failed = 5 \/ passed = 1 /\ failed = 4 \/
                      passed = 2 /\ failed = 3 \/ passed = 3 /\ failed = 2 \/
                      passed = 4 /\ failed = 1 \/ passed = 5 /\ failed = 0)%nat) by lia.
    destruct Hcases as [[-> ->]|[[-> ->]|[[-> ->]|[[-> ->]|[[-> ->]|[-> ->]]]]]];
      vm_compute; discriminate.
  - rewrite Nat.eqb_eq.
    assert (Hcases : (passed = 0 /\ failed = 5 \/ passed = 1 /\ failed = 4 \/
                      passed = 2 /\ failed = 3 \/ passed = 3 /\ failed = 2 \/
                      passed = 4 /\ failed = 1 \/ passed = 5 /\ failed = 0)%nat) by lia.
    destruct Hcases as [[-> ->]|[[-> ->]|[[-> ->]|[[-> ->]|[[-> ->]|[-> ->]]]]]];
      vm_compute; split; first [discriminate | reflexivity].
  - rewrite Nat.eqb_eq, Hall. split.
    + intros Htrue.
      assert (Himport : exists u, importMain runtime = Done u).
      { assert (Hfirst : In (nth 0 testCases (Build_TestCase "" [] "" "")) testCases)
          by (cbn; tauto).
        apply Htrue in Hfirst. apply runTest_true_iff in Hfirst. tauto. }
      split; [exact Himport|].
      intros testCase Hin. apply Htrue in Hin. apply runTest_true_iff in Hin. tauto.
    + intros [Himport Hcases] testCase Hin.
      apply runTest_true_iff. specialize (Hcases testCase Hin). tauto.
Qed.

Lemma runAllTests_report_witness :
  let '(passed, failed, rate, allPassed) := runAllTests passingRuntime in
  (passed + failed)%nat = 5%nat /\
  passed = List.length (filter (runTest passingRuntime) testCases) /\
  (Qabs (exactValue rate - 20 * inject_Z (Z.of_nat passed)) <= 1 # 10000000000000)%Q /\
  (allPassed = true <-> PrimFloat.eqb rate 100%float = true) /\
  (allPassed = true <->
   (exists u, importMain passingRuntime = Done u) /\
   forall testCase, In testCase testCases ->
     processOutput passingRuntime ("run" :: "--allow-all" :: "main.ts" :: args testCase)
     = Done 0%Z /\
     statIsFile passingRuntime (expectedOutput testCase) = Done true /\
     (exists u, remove passingRuntime (expectedOutput testCase) = Done u)).
Proof. exact (runAllTests_report passingRuntime). Defined.

Lemma single_line_page {num : Type} `{Number num} (customFont : PDFFont num) text
    (widthMm heightMm : num) (centerText : bool) (fontSizeMm : num)
    foregroundColor backgroundColor :
  occurrences newline text = 0%nat ->
  inherited foregroundColor = false -> inherited backgroundColor = false ->
  exists page,
    generatePDF customFont text widthMm heightMm centerText fontSizeMm
      foregroundColor backgroundColor = Ok page /\
    map fst (textsOf page) = [text].
Proof.
  intros Hline Hfg Hbg.
  destruct (generatePDF_ok customFont text widthMm heightMm centerText fontSizeMm
              _ _ Hfg Hbg) as (fg & bg & Hpage).
  eexists. split; [exact Hpage|].
  now rewrite textsOf_banner, textRuns_fst, split_line.
Qed.

(** The table of test cases against the program.  For each of the five
    cases, the file the test looks for is the one its arguments name after
    [--output]; the colours it passes are names of the table; and its text
    contains no line break (the case named multiline-text passes a backslash
    and the letter n), so [generatePDF] draws it as one run: no case of the
    suite reaches a second line of text.  The five output files are
    distinct. *)
Theorem test_cases_single_line :
  Forall (fun testCase =>
            optionValue (args testCase) "--output" = Some (expectedOutput testCase) /\
            exists text fg bg,
              optionValue (args testCase) "--text" = Some text /\
              optionOr (args testCase) "--fg" "black" = Some fg /\
              optionOr (args testCase) "--bg" "yellow" = Some bg /\
              In fg colorNames /\ In bg colorNames /\
              forall (num : Type) (N : Number num) (customFont : PDFFont num)
                     (widthMm heightMm : num) (centerText : bool) (fontSizeMm : num),
              exists page,
                generatePDF customFont text widthMm heightMm centerText fontSizeMm fg bg
                = Ok page /\
                map fst (textsOf page) = [text])
         testCases /\
  NoDup (map expectedOutput testCases).
Proof.
  split.
  - unfold testCases.
    repeat (constructor;
      [ split; [reflexivity|];
        do 3 eexists;
        split; [reflexivity|]; split; [reflexivity|]; split; [reflexivity|];
        split; [cbn; tauto|]; split; [cbn; tauto|];
        intros; apply single_line_page; reflexivity | ]).
    constructor.
  - cbn.
    repeat (constructor; [cbn; intros Hin;
      repeat (destruct Hin as [Hin|Hin]; [discriminate|]); contradiction|]).
    constructor.
Qed.

End TestSuite.
